(** * Solution / project resolver: a shallow embedding of
      [src/slnprojparse/parsing.py] and [src/models/model.py], with the
      entry points of [src/main.py].

    The Python program walks Visual Studio solution files, the XML project
    files they name and the folders around them.  The embedding keeps the
    shape of the code:

    - Python [str] values are Rocq strings whose characters are the code
      points below 256; [lower], [isspace] and friends are written out for
      that range;
    - [pathlib.Path] values (POSIX flavour) are a flag for absoluteness and a
      list of parts; [resolve] is the lexical normalisation against the
      working directory (the model has no symbolic links);
    - the file system is a finite map from absolute paths to nodes;
    - exceptions are an explicit outcome type, the mutable [visited] set of
      [parse_proj] is threaded through the calls as a [gset];
    - the recursion of [parse_proj] is not structural, so the embedding takes
      a recursion budget; [parse_proj_total] shows that one more than the
      number of paths the project references of the world can name is always
      enough. *)

From Stdlib Require Import String Ascii ZArith List Lia Bool.
From stdpp Require Import base option gmap sets list strings sorting.

Open Scope string_scope.
Open Scope list_scope.

(** ** Python string primitives *)

Module PyStr.

Definition in_range (lo hi n : nat) : bool := Nat.leb lo n && Nat.leb n hi.

(** [str.lower] on one character: A-Z, and the Latin-1 capitals
    U+00C0..U+00DE without the multiplication sign U+00D7. *)
Definition lower_char (c : ascii) : ascii :=
  let n := nat_of_ascii c in
  if in_range 65 90 n || (in_range 192 222 n && negb (Nat.eqb n 215))
  then ascii_of_nat (n + 32)
  else c.

Fixpoint lower (s : string) : string :=
  match s with
  | EmptyString => EmptyString
  | String c s' => String (lower_char c) (lower s')
  end.

(** What the regular expression class [\s] accepts on a [str] pattern:
    tab, LF, VT, FF, CR, the separators U+001C..U+001F, space, U+0085 and
    U+00A0. *)
Definition isspace (c : ascii) : bool :=
  let n := nat_of_ascii c in
  in_range 9 13 n || in_range 28 32 n || Nat.eqb n 133 || Nat.eqb n 160.

(** [s.replace(a, b)] for one-character [a] and [b]. *)
Fixpoint replace_char (a b : ascii) (s : string) : string :=
  match s with
  | EmptyString => EmptyString
  | String c s' =>
      String (if Ascii.eqb c a then b else c) (replace_char a b s')
  end.

Fixpoint rfind_from (c : ascii) (s : string) (i last : Z) : Z :=
  match s with
  | EmptyString => last
  | String a s' =>
      rfind_from c s' (i + 1)%Z (if Ascii.eqb a c then i else last)
  end.

(** [s.rfind(c)]: the index of the last occurrence, [-1] when there is
    none. *)
Definition rfind (c : ascii) (s : string) : Z := rfind_from c s 0%Z (-1)%Z.

(** [s[:i]] and [s[i:]] for [0 <= i]. *)
Definition slice_to (s : string) (i : Z) : string :=
  substring 0 (Z.to_nat i) s.
Definition slice_from (s : string) (i : Z) : string :=
  substring (Z.to_nat i) (String.length s - Z.to_nat i) s.

(** [sub in s]. *)
Fixpoint contains (sub s : string) : bool :=
  String.prefix sub s ||
  match s with
  | EmptyString => false
  | String _ s' => contains sub s'
  end.

Definition startswith (s pre : string) : bool := String.prefix pre s.

(** [s.endswith(suf)]: some tail of [s] is [suf]. *)
Fixpoint endswith (s suf : string) : bool :=
  String.eqb s suf ||
  match s with
  | EmptyString => false
  | String _ s' => endswith s' suf
  end.

(** [s.split(c)] for a one-character separator: never the empty list. *)
Fixpoint split (c : ascii) (s : string) : list string :=
  match s with
  | EmptyString => [EmptyString]
  | String a s' =>
      if Ascii.eqb a c then EmptyString :: split c s'
      else match split c s' with
           | [] => [String a EmptyString]
           | w :: ws => String a w :: ws
           end
  end.

(** [sep.join(parts)]. *)
Fixpoint join (sep : string) (parts : list string) : string :=
  match parts with
  | [] => EmptyString
  | [p] => p
  | p :: ps => p +:+ sep +:+ join sep ps
  end.

Fixpoint lstrip (c : ascii) (s : string) : string :=
  match s with
  | EmptyString => EmptyString
  | String a s' => if Ascii.eqb a c then lstrip c s' else s
  end.

Fixpoint rstrip (c : ascii) (s : string) : string :=
  match s with
  | EmptyString => EmptyString
  | String a s' =>
      match rstrip c s' with
      | EmptyString => if Ascii.eqb a c then EmptyString else String a EmptyString
      | r => String a r
      end
  end.

(** [s.strip(c)] for a one-character set. *)
Definition strip (c : ascii) (s : string) : string := rstrip c (lstrip c s).

(** [d.get(k, default)] on a dict literal. *)
Fixpoint dict_get {V} (k : string) (d : list (string * V)) (default : V) : V :=
  match d with
  | [] => default
  | (k', v) :: d' => if String.eqb k k' then v else dict_get k d' default
  end.

Fixpoint dict_lookup {V} (k : string) (d : list (string * V)) : option V :=
  match d with
  | [] => None
  | (k', v) :: d' => if String.eqb k k' then Some v else dict_lookup k d'
  end.

End PyStr.

(** ** [os.path] on POSIX *)

Module OsPath.
Import PyStr.

(** The loop of [genericpath._splitext] that skips leading dots: is there
    an index in [k, k + n) whose character is not a dot? *)
Fixpoint scan_non_dot (p : string) (k n : nat) : bool :=
  match n with
  | 0 => false
  | S n' =>
      match String.get k p with
      | Some c => if Ascii.eqb c "." then scan_non_dot p (S k) n' else true
      | None => true
      end
  end.

(** [os.path.splitext(p)]: separator [/], no alternative separator. *)
Definition splitext (p : string) : string * string :=
  let sepIndex := rfind "/" p in
  let dotIndex := rfind "." p in
  if (sepIndex <? dotIndex)%Z
     && scan_non_dot p (Z.to_nat (sepIndex + 1))
                     (Z.to_nat (dotIndex - (sepIndex + 1)))
  then (slice_to p dotIndex, slice_from p dotIndex)
  else (p, EmptyString).

(** [os.path.basename(p)]: what follows the last slash. *)
Definition basename (p : string) : string :=
  slice_from p (rfind "/" p + 1)%Z.

End OsPath.

(** ** The data model of [models/model.py] *)

Inductive Language : Set :=
| CSharp | FSharp | VB | Python | Java | JavaScript
| CSProject | VBProject | Empty.

Global Instance Language_eq_dec : EqDecision Language.
Proof. solve_decision. Defined.

(** The string value of each member of the [str]-based enumeration. *)
Definition Language_value (l : Language) : string :=
  match l with
  | CSharp => "CS" | FSharp => "FS" | VB => "VB" | Python => "PY"
  | Java => "JAVA" | JavaScript => "JS"
  | CSProject => "CSPROJECT" | VBProject => "VBPROJECT" | Empty => "EMPTY"
  end.

Record CodeFile : Set := mkCodeFile {
  file_name : string;
  cf_full_path : string;
  language : Language
}.

#[local] Set Warnings "-register-all,-clear-no-such-hyp".

Inductive Project : Set :=
  mkProject (full_path project_folder_path name : string)
            (code_files : list CodeFile)
            (child_projects : list Project).

Definition full_path (p : Project) : string :=
  match p with mkProject a _ _ _ _ => a end.
Definition project_folder_path (p : Project) : string :=
  match p with mkProject _ a _ _ _ => a end.
Definition name (p : Project) : string :=
  match p with mkProject _ _ a _ _ => a end.
Definition code_files (p : Project) : list CodeFile :=
  match p with mkProject _ _ _ a _ => a end.
Definition child_projects (p : Project) : list Project :=
  match p with mkProject _ _ _ _ a => a end.

Record Solution : Set := mkSolution {
  sol_full_path : string;
  solution_name : string;
  projects : list Project
}.

Record SolutionSet : Set := mkSolutionSet {
  start_path : string;
  solutions : list Solution
}.

(** ** The language classifier *)

Definition _detect_language (file_name : string) : Language :=
  let ext := PyStr.lower (snd (OsPath.splitext file_name)) in
  PyStr.dict_get ext
    [ (".cs", CSharp); (".fs", FSharp); (".vb", VB); (".py", Python);
      (".java", Java); (".js", JavaScript);
      (".csproj", CSProject); (".vbproj", VBProject) ]
    Empty.

(** ** Exceptions and outcomes *)

(** The exceptions the resolver can meet.  The first three are [OSError]
    subclasses. *)
Inductive exn : Set :=
| FileNotFoundError | IsADirectoryError | PermissionError
| UnicodeDecodeError | TypeError | ParseError.

Global Instance exn_eq_dec : EqDecision exn.
Proof. solve_decision. Defined.

Definition is_OSError (e : exn) : bool :=
  match e with
  | FileNotFoundError | IsADirectoryError | PermissionError => true
  | _ => false
  end.

(** A call returns, raises, or exhausts the recursion budget of the model. *)
Inductive outcome (A : Type) : Type :=
| Ok (a : A)
| Raise (e : exn)
| OutOfFuel.
Arguments Ok {A} a.
Arguments Raise {A} e.
Arguments OutOfFuel {A}.

Global Instance outcome_ret : MRet outcome := fun A a => Ok a.

Global Instance outcome_bind : MBind outcome := fun A B k m =>
  match m with
  | Ok a => k a
  | Raise e => Raise e
  | OutOfFuel => OutOfFuel
  end.

(** ** [pathlib] paths, POSIX flavour *)

Record Path : Set := mkPath { is_abs : bool; parts : list string }.

Global Instance Path_eq_dec : EqDecision Path.
Proof. solve_decision. Defined.

Global Instance Path_countable : Countable Path :=
  inj_countable' (fun p => (is_abs p, parts p))
                 (fun x => mkPath (fst x) (snd x))
                 (fun p => match p with mkPath _ _ => eq_refl end).

Module PathLib.
Import PyStr.

Definition keep_part (x : string) : bool :=
  negb (String.eqb x EmptyString) && negb (String.eqb x ".").

(** [pathlib.Path(s)]: slashes separate, empty and dot parts vanish. *)
Definition of_str (s : string) : Path :=
  mkPath (startswith s "/") (List.filter keep_part (split "/" s)).

(** [str(p)]. *)
Definition str (p : Path) : string :=
  if is_abs p then "/" +:+ join "/" (parts p)
  else match parts p with
       | [] => "."
       | _ => join "/" (parts p)
       end.

(** [a / b]. *)
Definition joinpath (a b : Path) : Path :=
  if is_abs b then b else mkPath (is_abs a) (parts a ++ parts b).

(** [p.parent]. *)
Definition parent (p : Path) : Path :=
  mkPath (is_abs p) (removelast (parts p)).

(** [p.name]. *)
Definition name (p : Path) : string := List.last (parts p) EmptyString.

(** [p.stem]: the name without its last suffix. *)
Definition stem (p : Path) : string :=
  let n := name p in
  let i := rfind "." n in
  if (0 <? i)%Z && (i <? Z.of_nat (String.length n) - 1)%Z
  then slice_to n i else n.

(** One step of the lexical normalisation: [..] pops, anything else is
    pushed (the stack is kept reversed). *)
Definition norm_step (stack : list string) (x : string) : list string :=
  if String.eqb x ".." then List.tl stack else x :: stack.

Definition normalize (ps : list string) : list string :=
  rev (fold_left norm_step ps []).

End PathLib.

(** ** XML element trees *)

Inductive element : Set :=
  Element (tag : string) (attrib : list (string * string))
          (children : list element).

Definition tag (e : element) : string :=
  match e with Element t _ _ => t end.
Definition attrib (e : element) : list (string * string) :=
  match e with Element _ a _ => a end.

Module ET.

(** Every element strictly below [e], in document order. *)
Fixpoint descendants (e : element) : list element :=
  match e with
  | Element _ _ cs => flat_map (fun c => c :: descendants c) cs
  end.

(** [root.findall(".//" + t)] for a plain (possibly namespace-qualified)
    tag [t]. *)
Definition findall_descendants (root : element) (t : string) : list element :=
  List.filter (fun e => String.eqb (tag e) t) (descendants root).

End ET.

(** ** The file system *)

(** What iterating over a text file delivers: lines, then the end of the
    file or a decoding failure.  A [UnicodeDecodeError] can follow lines
    already delivered, because the text layer decodes the file chunk by
    chunk. *)
Inductive text_stream : Set :=
| Eof
| Line (l : string) (rest : text_stream)
| DecodeFail.

(** A regular file, as its readers see it: whether it can be opened, what
    the XML parser makes of it ([None]: not well formed), and what the text
    layer delivers. *)
Record file_data : Set := mkFile {
  readable : bool;
  xml : option element;
  text : text_stream
}.

Inductive node : Set :=
| File (d : file_data)
| Dir.

(** The environment of a run: the working directory, the files, and whether
    the root logger lets DEBUG records through ([SLN_LOG_LEVEL=DEBUG] or a
    logging configuration file; the default level is INFO). *)
Record world : Type := mkWorld {
  cwd : list string;
  files : gmap Path node;
  debug_enabled : bool
}.

Definition resolve (w : world) (p : Path) : Path :=
  mkPath true
    (PathLib.normalize (if is_abs p then parts p else cwd w ++ parts p)).

Definition is_file (w : world) (p : Path) : bool :=
  match files w !! p with
  | Some (File _) => true
  | _ => false
  end.

Definition is_dir (w : world) (p : Path) : bool :=
  match files w !! p with
  | Some Dir => true
  | _ => false
  end.

Definition exists_on_disk (w : world) (p : Path) : bool :=
  match files w !! p with
  | Some _ => true
  | None => false
  end.

(** Opening a path for reading. *)
Definition open_file (w : world) (p : Path) : outcome file_data :=
  match files w !! resolve w p with
  | None => Raise FileNotFoundError
  | Some Dir => Raise IsADirectoryError
  | Some (File d) => if readable d then Ok d else Raise PermissionError
  end.

(** [ET.parse(str(p)).getroot()].  A file that is no well-formed XML
    raises [ParseError]; encoding declarations the parser answers with
    [ValueError] or [LookupError] are outside the embedding. *)
Definition ET_parse (w : world) (p : Path) : outcome element :=
  d ← open_file w p;
  match xml d with
  | Some root => Ok root
  | None => Raise ParseError
  end.

(** ** Logging *)

(** [log_debug] hands its keyword arguments to [Logger.debug]; when
    DEBUG is enabled they reach [Logger._log], which accepts [exc_info],
    [extra], [stack_info] and [stacklevel] and nothing else.  Calls without
    keywords cannot raise and are left out of the embedding. *)
Definition log_debug (w : world) (kwargs : list string) : outcome unit :=
  if debug_enabled w
     && negb (forallb
                (fun k => existsb (String.eqb k)
                            ["exc_info"; "extra"; "stack_info"; "stacklevel"])
                kwargs)
  then Raise TypeError
  else Ok tt.

(** ** The constructor of the [Project] dataclass *)

(** The generated [__init__] takes the five fields, all required, by
    keyword: [unexpected] lists the keywords of a call that name no field,
    an argument that the call leaves out is [None]. *)
Definition Project_init (unexpected : list string)
    (full_path project_folder_path name : option string)
    (code_files : option (list CodeFile))
    (child_projects : option (list Project)) : outcome Project :=
  match unexpected, full_path, project_folder_path, name,
        code_files, child_projects with
  | [], Some a, Some b, Some c, Some d, Some e => Ok (mkProject a b c d e)
  | _, _, _, _, _, _ => Raise TypeError
  end.

Definition set_project_folder_path (p : Project) (v : string) : Project :=
  match p with mkProject a _ c d e => mkProject a v c d e end.

Definition set_child_projects (p : Project) (v : list Project) : Project :=
  match p with mkProject a b c d _ => mkProject a b c d v end.

Definition backslash : ascii := ascii_of_nat 92.
Definition dquote : ascii := ascii_of_nat 34.

(** ** The project resolver *)

Definition _process_child_project (w : world) (child_project : Project)
  : Project :=
  let child_project_folder_path :=
    resolve w (PathLib.parent (PathLib.of_str (full_path child_project))) in
  set_project_folder_path child_project
    (PathLib.str child_project_folder_path).

(** The namespace prefix taken from the root tag. *)
Definition ns_prefix_of (root : element) : string :=
  if PyStr.startswith (tag root) "{" then
    let ns_uri := PyStr.strip "{" (List.hd EmptyString (PyStr.split "}" (tag root))) in
    "{" +:+ ns_uri +:+ "}"
  else EmptyString.

Definition is_source_language (l : Language) : bool :=
  bool_decide (l = CSharp) || bool_decide (l = VB).

Definition is_project_language (l : Language) : bool :=
  bool_decide (l = CSProject) || bool_decide (l = VBProject).

(** The path an [Include] attribute names, seen from the project's folder. *)
Definition include_path (w : world) (proj_path : Path) (inc : string) : Path :=
  resolve w (PathLib.joinpath (PathLib.parent proj_path) (PathLib.of_str inc)).

(** The body of the loop over the [Compile] elements; the state is
    [(code_files, child_projects)]. *)
Definition compile_item (w : world) (proj_path : Path) (item : element)
    (st : list CodeFile * list Project)
  : outcome (list CodeFile * list Project) :=
  match PyStr.dict_lookup "Include" (attrib item) with
  | None => Ok st
  | Some inc =>
      if String.eqb inc EmptyString then Ok st
      else
        let src_path := include_path w proj_path inc in
        if is_file w src_path then
          let _language := _detect_language (PathLib.name src_path) in
          let code_files :=
            if is_source_language _language then
              fst st ++ [mkCodeFile (OsPath.basename (PathLib.str src_path))
                                    (PathLib.str src_path)
                                    (_detect_language (PathLib.name src_path))]
            else fst st in
          if is_project_language _language then
            prj ← Project_init ["file_name"]
                    (Some (PathLib.str src_path)) None None None None;
            Ok (code_files, snd st ++ [_process_child_project w prj])
          else Ok (code_files, snd st)
        else Ok st
  end.

Fixpoint compile_loop (w : world) (proj_path : Path) (items : list element)
    (st : list CodeFile * list Project)
  : outcome (list CodeFile * list Project) :=
  match items with
  | [] => Ok st
  | item :: items' =>
      st' ← compile_item w proj_path item st;
      compile_loop w proj_path items' st'
  end.

(** [child_proj.child_projects.extend(grandchildren)].  The list handed back
    by [parse_proj] next to the project is the very list the project holds
    (see [parse_proj_alias]), so the extension doubles it; [grandchildren]
    is not used afterwards, which makes the value below exact. *)
Definition extend_child_projects (child_proj : Project)
    (grandchildren : list Project) : Project :=
  set_child_projects child_proj (child_projects child_proj ++ grandchildren).

(** The body of the loop over the [ProjectReference] elements; the state is
    [(child_projects, visited)], [rec] is the recursive call. *)
Definition ref_item
    (rec : Path -> gset Path -> outcome (Project * list Project * gset Path))
    (w : world) (proj_path : Path) (ref : element)
    (st : list Project * gset Path)
  : outcome (list Project * gset Path) :=
  match PyStr.dict_lookup "Include" (attrib ref) with
  | None => Ok st
  | Some inc =>
      let child_path := include_path w proj_path inc in
      if decide (child_path ∈ snd st) then Ok st
      else
        let visited := {[child_path]} ∪ snd st in
        '(child_proj, grandchildren, visited) ← rec child_path visited;
        let child_proj := extend_child_projects child_proj grandchildren in
        Ok (fst st ++ [child_proj], visited)
  end.

Fixpoint refs_loop
    (rec : Path -> gset Path -> outcome (Project * list Project * gset Path))
    (w : world) (proj_path : Path) (refs : list element)
    (st : list Project * gset Path)
  : outcome (list Project * gset Path) :=
  match refs with
  | [] => Ok st
  | ref :: refs' =>
      st' ← ref_item rec w proj_path ref st;
      refs_loop rec w proj_path refs' st'
  end.

(** [Path.rglob("*" + suffix)]: every entry strictly below [dir], reached
    through directories only, whose name ends in [suffix]; nothing when
    [dir] is not a directory.  The order is the enumeration order of the
    map. *)
Definition under (dir p : Path) : bool :=
  is_abs p
  && bool_decide (take (length (parts dir)) (parts p) = parts dir)
  && Nat.ltb (length (parts dir)) (length (parts p)).

Definition dirs_between (w : world) (dir p : Path) : bool :=
  forallb (fun k => is_dir w (mkPath true (take k (parts p))))
          (seq (length (parts dir)) (length (parts p) - length (parts dir))).

Definition rglob (w : world) (dir : Path) (suffix : string) : list Path :=
  if is_dir w dir then
    List.filter
      (fun p => under dir p && dirs_between w dir p
                && PyStr.endswith (PathLib.name p) suffix)
      (List.map fst (map_to_list (files w)))
  else [].

Definition _get_sdk_files (w : world) (project_Type : string)
    (proj_path : Path) : list CodeFile :=
  let codeList :=
    List.map (resolve w) (rglob w proj_path ".cs")
    ++ List.map (resolve w) (rglob w proj_path ".vb") in
  List.map
    (fun cf_path =>
       mkCodeFile (OsPath.basename (PathLib.str cf_path))
                  (PathLib.str cf_path)
                  (_detect_language (PathLib.name cf_path)))
    codeList.

(** The path [parse_proj] works on: separators normalised, then resolved. *)
Definition canon (w : world) (proj_path : Path) : Path :=
  resolve w (PathLib.of_str
               (PyStr.replace_char backslash "/" (PathLib.str proj_path))).

Definition project_type_of (root : element) : string :=
  match PyStr.dict_lookup "Sdk" (attrib root) with
  | Some v => if String.eqb v "Microsoft.NET.Sdk" then "dotNET_SDK"
              else "UNKNOWN"
  | None => "UNKNOWN"
  end.

(** The code files the project ends up with: the collected ones, or the
    scan of the folder for an SDK project that collected none. *)
Definition collected_source_files (w : world) (proj_path : Path)
    (root : element) (code_files : list CodeFile) : list CodeFile :=
  let project_type := project_type_of root in
  if Nat.ltb (length code_files) 1 && String.eqb project_type "dotNET_SDK"
  then _get_sdk_files w project_type (PathLib.parent proj_path)
  else code_files.

(** The [Project] built at the end of [parse_proj]. *)
Definition build_project (w : world) (proj_path : Path)
    (code_files : list CodeFile) (child_projects : list Project) : Project :=
  let proj_file_name := PathLib.name proj_path in
  let proj_folder_path := PathLib.str (resolve w (PathLib.parent proj_path)) in
  let proj_full_path := proj_folder_path +:+ "/" +:+ proj_file_name in
  mkProject proj_full_path proj_folder_path (PathLib.stem proj_path)
            code_files child_projects.

Fixpoint parse_proj (fuel : nat) (w : world) (proj_path : Path)
    (visited : gset Path)
  : outcome (Project * list Project * gset Path) :=
  match fuel with
  | O => OutOfFuel
  | S fuel' =>
      let proj_path := canon w proj_path in
      if negb (is_file w proj_path) then Raise FileNotFoundError
      else
        root ← ET_parse w proj_path;
        let ns_prefix := ns_prefix_of root in
        '(code_files, child_projects) ←
          compile_loop w proj_path
            (ET.findall_descendants root (ns_prefix +:+ "Compile")) ([], []);
        '(child_projects, visited) ←
          refs_loop (parse_proj fuel' w) w proj_path
            (ET.findall_descendants root (ns_prefix +:+ "ProjectReference"))
            (child_projects, visited);
        let project :=
          build_project w proj_path
            (collected_source_files w proj_path root code_files)
            child_projects in
        Ok (project, child_projects, visited)
  end.

(** The paths the [ProjectReference] elements of a project name, in document
    order. *)
Definition ref_targets (w : world) (proj_path : Path) (root : element)
  : list Path :=
  omap (fun ref =>
          inc ← PyStr.dict_lookup "Include" (attrib ref);
          Some (include_path w proj_path inc))
       (ET.findall_descendants root
          (ns_prefix_of root +:+ "ProjectReference")).

(** Every path a recursive call can be made on: the targets of all the
    project files of the world. *)
Definition node_targets (w : world) (entry : Path * node) : list Path :=
  match snd entry with
  | File d =>
      match xml d with
      | Some root => ref_targets w (fst entry) root
      | None => []
      end
  | Dir => []
  end.

Definition candidates (w : world) : gset Path :=
  list_to_set (flat_map (node_targets w) (map_to_list (files w))).

(** A recursion budget that is always enough (see [parse_proj_total]): each
    nested call marks one more candidate as visited. *)
Definition enough_fuel (w : world) : nat := size (candidates w) + 1.

(** [parse_proj] as the program runs it. *)
Definition run_parse_proj (w : world) (proj_path : Path)
    (visited : gset Path) : outcome (Project * list Project * gset Path) :=
  parse_proj (enough_fuel w) w proj_path visited.

(** ** The solution resolver *)

Definition _parse_project_file (w : world) (proj_path : Path)
  : outcome Project :=
  let name := PathLib.stem proj_path in
  let proj_file_name := PathLib.name proj_path in
  '(rootProj, childProj, _) ← run_parse_proj w proj_path ∅;
  let code_files := code_files rootProj in
  let child_projects := List.map (_process_child_project w) childProj in
  let proj_folder_path := PathLib.str (resolve w (PathLib.parent proj_path)) in
  let proj_full_path := proj_folder_path +:+ "/" +:+ proj_file_name in
  Ok (mkProject proj_full_path proj_folder_path name code_files child_projects).

(** The matcher of [_PROJECT_LINE_RE] (flags IGNORECASE and VERBOSE), used
    through [match]: anchored at the start of the line, free at its end.
    Every repetition of the pattern is followed by a character it excludes,
    so the greedy reading below is the only one. *)
Module Re.
Import PyStr.

(** One literal character. *)
Definition eat (c : ascii) (s : string) : option string :=
  match s with
  | String a r => if Ascii.eqb a c then Some r else None
  | EmptyString => None
  end.

(** A literal word, letter case ignored. *)
Fixpoint eat_ci (pat s : string) : option string :=
  match pat with
  | EmptyString => Some s
  | String p pat' =>
      match s with
      | String a r =>
          if Ascii.eqb (lower_char a) (lower_char p) then eat_ci pat' r
          else None
      | EmptyString => None
      end
  end.

(** [\s*]. *)
Fixpoint skip_space (s : string) : string :=
  match s with
  | String a r => if isspace a then skip_space r else s
  | EmptyString => s
  end.

(** The longest prefix free of [c], and the rest. *)
Fixpoint span_not (c : ascii) (s : string) : string * string :=
  match s with
  | String a r =>
      if Ascii.eqb a c then (EmptyString, s)
      else let xr := span_not c r in (String a (fst xr), snd xr)
  | EmptyString => (EmptyString, EmptyString)
  end.

(** [[^c]+]. *)
Definition many1_not (c : ascii) (s : string) : option (string * string) :=
  match span_not c s with
  | (EmptyString, _) => None
  | (x, r) => Some (x, r)
  end.

(** A double-quoted, brace-wrapped GUID. *)
Definition guid (s : string) : option string :=
  s ← eat dquote s;
  s ← eat "{" s;
  xr ← many1_not "}" s;
  s ← eat "}" (snd xr);
  eat dquote s.

(** A double-quoted, non-empty text; the text is captured. *)
Definition quoted (s : string) : option (string * string) :=
  s ← eat dquote s;
  xr ← many1_not dquote s;
  s ← eat dquote (snd xr);
  Some (fst xr, s).

(** A separator character with optional space on both sides. *)
Definition sep (c : ascii) (s : string) : option string :=
  s ← eat c (skip_space s);
  Some (skip_space s).

End Re.

(** [_PROJECT_LINE_RE.match(line)]: the groups [proj_name] and [proj_path]. *)
Definition _PROJECT_LINE_RE_match (line : string) : option (string * string) :=
  s ← Re.eat_ci "Project" line;
  s ← Re.eat "(" s;
  s ← Re.guid s;
  s ← Re.eat ")" s;
  s ← Re.sep "=" s;
  nm ← Re.quoted s;
  s ← Re.sep "," (snd nm);
  pa ← Re.quoted s;
  s ← Re.sep "," (snd pa);
  _ ← Re.guid s;
  Some (fst nm, fst pa).

(** The test of line 285 on the text of the entry's path. *)
Definition is_supported_ref (sProj_path : string) : bool :=
  PyStr.contains ".csproj" (PyStr.lower sProj_path)
  || PyStr.contains ".vbproj" sProj_path.

(** The loop over the lines of the solution file.  [solution.projects] is
    mutated in place, so what was appended before an exception stays: the
    loop hands back the list together with how it ended. *)
Fixpoint sln_loop (w : world) (sln_path : Path) (fh : text_stream)
    (projects : list Project) : list Project * outcome unit :=
  match fh with
  | Eof => (projects, Ok tt)
  | DecodeFail => (projects, Raise UnicodeDecodeError)
  | Line line rest =>
      match _PROJECT_LINE_RE_match line with
      | None => sln_loop w sln_path rest projects
      | Some m =>
          let proj_path :=
            PathLib.of_str (PyStr.replace_char backslash "/" (snd m)) in
          let sProj_path := PathLib.str proj_path in
          if is_supported_ref sProj_path then
            let abs_proj_path :=
              resolve w (PathLib.joinpath (PathLib.parent sln_path) proj_path) in
            match _parse_project_file w abs_proj_path with
            | Ok project => sln_loop w sln_path rest (projects ++ [project])
            | Raise e => (projects, Raise e)
            | OutOfFuel => (projects, OutOfFuel)
            end
          else sln_loop w sln_path rest projects
      end
  end.

(** The [try] block: open the file, run the loop. *)
Definition sln_try (w : world) (sln_path : Path)
  : list Project * outcome unit :=
  match open_file w sln_path with
  | Ok d => sln_loop w sln_path (text d) []
  | Raise e => ([], Raise e)
  | OutOfFuel => ([], OutOfFuel)
  end.

Definition _parse_solution_file (w : world) (sln_path : Path)
  : outcome Solution :=
  let solution_name := PathLib.name sln_path in
  let solution_root := PathLib.str (resolve w (PathLib.parent sln_path)) in
  let r := sln_try w sln_path in
  let solution := mkSolution solution_root solution_name (fst r) in
  match snd r with
  | Ok _ => Ok solution
  | Raise exc =>
      if is_OSError exc || bool_decide (exc = UnicodeDecodeError) then
        _ ← log_debug w ["file"];
        Ok solution
      else Raise exc
  | OutOfFuel => OutOfFuel
  end.

(** ** The discovery driver *)

Fixpoint discover_loop (w : world) (sln_files : list Path)
    (solutions : list Solution) : outcome (list Solution) :=
  match sln_files with
  | [] => Ok solutions
  | sln_file :: rest =>
      solution ← _parse_solution_file w sln_file;
      discover_loop w rest (solutions ++ [solution])
  end.

Definition discover_solution_set (w : world) (start_path : Path)
  : outcome SolutionSet :=
  let start_path := resolve w start_path in
  solutions ← discover_loop w (rglob w start_path ".sln") [];
  Ok (mkSolutionSet (PathLib.str start_path) solutions).

(** ** Views of the resolver used by the statements *)

(** The outcome of the [Compile] loop of a project. *)
Definition compile_result (w : world) (proj_path : Path) (root : element)
  : outcome (list CodeFile * list Project) :=
  compile_loop w proj_path
    (ET.findall_descendants root (ns_prefix_of root +:+ "Compile")) ([], []).

(** The [ProjectReference] loop read on the targets themselves. *)
Definition target_item
    (rec : Path -> gset Path -> outcome (Project * list Project * gset Path))
    (child_path : Path) (st : list Project * gset Path)
  : outcome (list Project * gset Path) :=
  if decide (child_path ∈ snd st) then Ok st
  else
    '(child_proj, grandchildren, visited) ←
      rec child_path ({[child_path]} ∪ snd st);
    Ok (fst st ++ [extend_child_projects child_proj grandchildren], visited).

Fixpoint targets_loop
    (rec : Path -> gset Path -> outcome (Project * list Project * gset Path))
    (targets : list Path) (st : list Project * gset Path)
  : outcome (list Project * gset Path) :=
  match targets with
  | [] => Ok st
  | t :: ts => st' ← target_item rec t st; targets_loop rec ts st'
  end.

(** The text [parse_proj] stores in [full_path] for a project path. *)
Definition proj_full_path (w : world) (proj_path : Path) : string :=
  PathLib.str (resolve w (PathLib.parent proj_path))
  +:+ "/" +:+ PathLib.name proj_path.

(** The extensions the classifier knows. *)
Definition language_table_keys : list string :=
  [".cs"; ".fs"; ".vb"; ".py"; ".java"; ".js"; ".csproj"; ".vbproj"].

(** ** Sample worlds *)

Module Sample.

Definition at_root (ps : list string) : Path := mkPath true ps.

Definition plain_file : node := File (mkFile true None Eof).

Definition compile (inc : string) : element :=
  Element "Compile" [("Include", inc)] [].

Definition reference (inc : string) : element :=
  Element "ProjectReference" [("Include", inc)] [].

(** A project file: an optional [Sdk] attribute, one item group. *)
Definition project_root (sdk : bool) (items : list element) : element :=
  Element "Project" (if sdk then [("Sdk", "Microsoft.NET.Sdk")] else [])
          [Element "ItemGroup" [] items].

Definition project (sdk : bool) (items : list element) : node :=
  File (mkFile true (Some (project_root sdk items)) Eof).

Definition world_of (entries : list (Path * node)) : world :=
  mkWorld [] (list_to_map entries) false.

(** Two projects that reference each other. *)
Definition cycle : world :=
  world_of
    [ (at_root ["r"], Dir);
      (at_root ["r"; "A.csproj"], project false [reference "B.csproj"]);
      (at_root ["r"; "B.csproj"], project false [reference "A.csproj"]) ].

(** A diamond: R references B and C, both reference D. *)
Definition diamond : world :=
  world_of
    [ (at_root ["r"], Dir);
      (at_root ["r"; "R.csproj"],
         project false [reference "B.csproj"; reference "C.csproj"]);
      (at_root ["r"; "B.csproj"], project false [reference "D.csproj"]);
      (at_root ["r"; "C.csproj"], project false [reference "D.csproj"]);
      (at_root ["r"; "D.csproj"], project false []) ].

(** An SDK project without [Compile] elements, two sources on disk. *)
Definition sdk : world :=
  world_of
    [ (at_root ["app"], Dir);
      (at_root ["app"; "App.csproj"], project true []);
      (at_root ["app"; "Program.cs"], plain_file);
      (at_root ["app"; "Helpers"], Dir);
      (at_root ["app"; "Helpers"; "Util.cs"], plain_file);
      (at_root ["app"; "notes.txt"], plain_file) ].

(** A project that lists another project as a compile item. *)
Definition nested : world :=
  world_of
    [ (at_root ["r"], Dir);
      (at_root ["r"; "App.csproj"], project false [compile "Lib.csproj"]);
      (at_root ["r"; "Lib.csproj"], project false []) ].

(** A project with one stale and one live compile item. *)
Definition dangling : world :=
  world_of
    [ (at_root ["r"], Dir);
      (at_root ["r"; "App.csproj"],
         project false [compile "Gone.cs"; compile "Program.cs"]);
      (at_root ["r"; "Program.cs"], plain_file) ].

Definition q : string := String dquote EmptyString.
Definition nl : string := String (ascii_of_nat 10) EmptyString.

(** A project line of a solution file. *)
Definition project_line (nm pa : string) : string :=
  "Project(" +:+ q +:+ "{FAE04EC0-301F-11D3-BF4B-00C04F79EFBC}" +:+ q
  +:+ ") = " +:+ q +:+ nm +:+ q +:+ ", " +:+ q +:+ pa +:+ q +:+ ", "
  +:+ q +:+ "{6F1D2C3B-0001-4A5E-9C7D-112233445566}" +:+ q +:+ nl.

(** A solution whose text stops decoding after its first project line (in
    a file of more than one decoding chunk), next to a solution that is
    sound and a path that is a solution file. *)
Definition solutions : world :=
  world_of
    [ (at_root ["s"], Dir);
      (at_root ["s"; "App.csproj"], project false []);
      (at_root ["s"; "Broken.sln"],
         File (mkFile true None
                 (Line (project_line "App" "App.csproj") DecodeFail)));
      (at_root ["s"; "Locked.sln"],
         File (mkFile false None
                 (Line (project_line "App" "App.csproj") Eof)));
      (at_root ["s"; "App.sln"],
         File (mkFile true None
                 (Line (project_line "App" "App.csproj") Eof))) ].

(** A repository: a solution in [Solution1] naming [App.csproj], which
    compiles [Program.cs] and references [../Lib/Lib.csproj]. *)
Definition repo : world :=
  world_of
    [ (at_root ["repo"], Dir);
      (at_root ["repo"; "Solution1"], Dir);
      (at_root ["repo"; "Solution1"; "App.sln"],
         File (mkFile true None
                 (Line "Microsoft Visual Studio Solution File"
                 (Line (project_line "App" "App.csproj")
                 (Line "EndProject"
                 (Line (project_line "Docs" "Docs")
                 (Line "Global" Eof)))))));
      (at_root ["repo"; "Solution1"; "App.csproj"],
         project false [compile "Program.cs";
                        reference "../Lib/Lib.csproj"]);
      (at_root ["repo"; "Solution1"; "Program.cs"], plain_file);
      (at_root ["repo"; "Lib"], Dir);
      (at_root ["repo"; "Lib"; "Lib.csproj"], project false []) ].

(** A solution that names a missing project between two that exist. *)
Definition stale_solution : world :=
  world_of
    [ (at_root ["t"], Dir);
      (at_root ["t"; "All.sln"],
         File (mkFile true None
                 (Line (project_line "App" "App.csproj")
                 (Line (project_line "Gone" "Gone.csproj")
                 (Line (project_line "Lib" "Lib.csproj") Eof)))));
      (at_root ["t"; "App.csproj"], project false []);
      (at_root ["t"; "Lib.csproj"], project false []) ].

(** The same files with DEBUG records enabled. *)
Definition solutions_debug : world :=
  mkWorld (cwd solutions) (files solutions) true.

End Sample.

(** The [CodeFile] both loops build for a source path. *)
Definition code_file_of (src_path : Path) : CodeFile :=
  mkCodeFile (OsPath.basename (PathLib.str src_path))
             (PathLib.str src_path)
             (_detect_language (PathLib.name src_path)).

(** A code file built from a path that is an existing file. *)
Definition names_existing_file (w : world) (cf : CodeFile) : Prop :=
  exists src, is_file w src = true /\ cf = code_file_of src.

(** The text of an entry's path as line 285 tests it, and the test. *)
Definition entry_text (proj_path : string) : string :=
  PathLib.str (PathLib.of_str (PyStr.replace_char backslash "/" proj_path)).

(** The specification's reading of a supported entry: the path ends in
    [.csproj] or [.vbproj], letter case ignored. *)
Definition ends_with_project_ext_ci (s : string) : bool :=
  PyStr.endswith (PyStr.lower s) ".csproj"
  || PyStr.endswith (PyStr.lower s) ".vbproj".

(** A text stream cut where its decoding fails. *)
Fixpoint until_failure (fh : text_stream) : text_stream :=
  match fh with
  | Eof => Eof
  | Line l rest => Line l (until_failure rest)
  | DecodeFail => Eof
  end.

Fixpoint ends_in_failure (fh : text_stream) : bool :=
  match fh with
  | Eof => false
  | Line _ rest => ends_in_failure rest
  | DecodeFail => true
  end.

(** The solution file cannot be opened, or its text does not decode. *)
Definition cannot_be_read (w : world) (sln_path : Path) : bool :=
  match open_file w sln_path with
  | Ok d => ends_in_failure (text d)
  | Raise _ => true
  | OutOfFuel => false
  end.

(** The lines that are read before the failure. *)
Definition readable_prefix (w : world) (sln_path : Path) : text_stream :=
  match open_file w sln_path with
  | Ok d => until_failure (text d)
  | _ => Eof
  end.

(** How many projects of a tree carry a given [full_path]. *)
Fixpoint count_path (s : string) (p : Project) : nat :=
  match p with
  | mkProject fp _ _ _ cs =>
      (if String.eqb fp s then 1 else 0)
      + list_sum (List.map (count_path s) cs)
  end.

(** The project file at [p] parses to [root], its [Compile] loop goes
    through with the code files [cfs], and its references name [targets]. *)
Definition resolves (w : world) (p : Path) (root : element)
    (cfs : list CodeFile) (targets : list Path) : Prop :=
  is_file w (canon w p) = true
  /\ ET_parse w (canon w p) = Ok root
  /\ compile_result w (canon w p) root = Ok (cfs, [])
  /\ ref_targets w (canon w p) root = targets.

(** The project [parse_proj] builds for such a file around given children. *)
Definition project_node (w : world) (p : Path) (root : element)
    (cfs : list CodeFile) (children : list Project) : Project :=
  build_project w (canon w p)
    (collected_source_files w (canon w p) root cfs) children.

(** [c in s] for one character. *)
Fixpoint has_char (c : ascii) (s : string) : bool :=
  match s with
  | EmptyString => false
  | String a s' => Ascii.eqb a c || has_char c s'
  end.

(** A plain file name: not empty, no slash, no leading dot. *)
Definition plain_stem (base : string) : bool :=
  match base with
  | EmptyString => false
  | String a _ => negb (Ascii.eqb a ".") && negb (has_char "/" base)
  end.

(** A suffix without dot or slash. *)
Definition plain_suffix (e : string) : bool :=
  negb (has_char "." e) && negb (has_char "/" e).

(** What the line loop does with an entry it forwards: resolve the project
    and go on with one more project, or stop on what the resolution raises. *)
Definition forward_entry (w : world) (sln_path : Path) (proj_path : string)
    (rest : text_stream) (projects : list Project)
  : list Project * outcome unit :=
  match _parse_project_file w
          (resolve w
             (PathLib.joinpath (PathLib.parent sln_path)
                (PathLib.of_str
                   (PyStr.replace_char backslash "/" proj_path))))
  with
  | Ok project => sln_loop w sln_path rest (projects ++ [project])
  | Raise e => (projects, Raise e)
  | OutOfFuel => (projects, OutOfFuel)
  end.

(** ** Proof automation *)

Ltac obind := cbn [mbind outcome_bind].

Ltac table_case ext k :=
  destruct (String.eqb_spec ext k) as [->|?];
  [repeat split; intros;
   solve [ done | discriminate | tauto | exfalso; intuition discriminate ] |].
(** ** Views used by the further properties *)

(** Every project of the tree holds each of its children twice over: its
    list is some list followed by itself. *)
Fixpoint doubled (p : Project) : Prop :=
  match p with
  | mkProject _ _ _ _ cs =>
      (exists l, cs = l ++ l)
      /\ fold_right and True (List.map doubled cs)
  end.

(** The existing file a [Compile] element names, if any. *)
Definition compile_target (w : world) (proj_path : Path) (item : element)
  : option Path :=
  match PyStr.dict_lookup "Include" (attrib item) with
  | None => None
  | Some inc =>
      if String.eqb inc EmptyString then None
      else if is_file w (include_path w proj_path inc)
           then Some (include_path w proj_path inc)
           else None
  end.

(** The element names an existing file classified as a project. *)
Definition is_project_item (w : world) (proj_path : Path) (item : element)
  : bool :=
  match compile_target w proj_path item with
  | Some src => is_project_language (_detect_language (PathLib.name src))
  | None => false
  end.

(** The code file of an element that names an existing C# or VB file. *)
Definition source_file_of (w : world) (proj_path : Path) (item : element)
  : option CodeFile :=
  match compile_target w proj_path item with
  | Some src =>
      if is_source_language (_detect_language (PathLib.name src))
      then Some (code_file_of src) else None
  | None => None
  end.

(** The languages the code files of a resolved project can carry. *)
Definition scanned_language (l : Language) : Prop :=
  l = CSharp \/ l = VB \/ l = Empty.


(** The project paths the line loop forwards, in line order. *)
Fixpoint forwarded_paths (w : world) (sln_path : Path) (fh : text_stream)
  : list Path :=
  match fh with
  | Line line rest =>
      match _PROJECT_LINE_RE_match line with
      | Some m =>
          let proj_path :=
            PathLib.of_str (PyStr.replace_char backslash "/" (snd m)) in
          if is_supported_ref (PathLib.str proj_path) then
            resolve w (PathLib.joinpath (PathLib.parent sln_path) proj_path)
            :: forwarded_paths w sln_path rest
          else forwarded_paths w sln_path rest
      | None => forwarded_paths w sln_path rest
      end
  | _ => []
  end.

(** The line loop read on the forwarded paths alone. *)
Fixpoint projects_loop (w : world) (paths : list Path)
    (projects : list Project) : list Project * outcome unit :=
  match paths with
  | [] => (projects, Ok tt)
  | q :: rest =>
      match _parse_project_file w q with
      | Ok project => projects_loop w rest (projects ++ [project])
      | Raise e => (projects, Raise e)
      | OutOfFuel => (projects, OutOfFuel)
      end
  end.

(** Resolving a list of project paths one after the other. *)
Fixpoint resolve_each (w : world) (paths : list Path)
  : outcome (list Project) :=
  match paths with
  | [] => Ok []
  | q :: rest =>
      project ← _parse_project_file w q;
      projects ← resolve_each w rest;
      Ok (project :: projects)
  end.

(** The folder and the name a resolved solution carries. *)
Definition solution_shell (w : world) (sln_path : Path)
    (projects : list Project) : Solution :=
  mkSolution (PathLib.str (resolve w (PathLib.parent sln_path)))
             (PathLib.name sln_path) projects.

(** ** Further sample worlds *)

Module Fixture.

(** Two solutions side by side: [Good.sln] names a sound library,
    [Bad.sln] a project that lists the library as a compile item. *)
Definition poisoned : world :=
  Sample.world_of
    [ (Sample.at_root ["p"], Dir);
      (Sample.at_root ["p"; "Bad.sln"],
         File (mkFile true None
                 (Line (Sample.project_line "App" "App.csproj") Eof)));
      (Sample.at_root ["p"; "Good.sln"],
         File (mkFile true None
                 (Line (Sample.project_line "Lib" "Lib.csproj") Eof)));
      (Sample.at_root ["p"; "App.csproj"],
         Sample.project false [Sample.compile "Lib.csproj"]);
      (Sample.at_root ["p"; "Lib.csproj"], Sample.project false []) ].

(** A folder whose solution file carries an upper-case suffix. *)
Definition shouting : world :=
  Sample.world_of
    [ (Sample.at_root ["u"], Dir);
      (Sample.at_root ["u"; "App.SLN"],
         File (mkFile true None
                 (Line (Sample.project_line "App" "App.csproj") Eof)));
      (Sample.at_root ["u"; "App.csproj"], Sample.project false []) ].


(** Two projects that reference each other, the second of which names
    itself as well, in the Windows spelling. *)
Definition other_spelling : world :=
  Sample.world_of
    [ (Sample.at_root ["r"], Dir);
      (Sample.at_root ["r"; "A.csproj"],
         Sample.project false [Sample.reference "B.csproj"]);
      (Sample.at_root ["r"; "B.csproj"],
         Sample.project false [Sample.reference "A.csproj";
                               Sample.reference "..\r\B.csproj"]) ].

(** The repository of [Sample.repo] with DEBUG records enabled. *)
Definition repo_debug : world :=
  mkWorld (cwd Sample.repo) (files Sample.repo) true.

End Fixture.

(** [s] consists of white space only. *)
Fixpoint all_space (s : string) : bool :=
  match s with
  | EmptyString => true
  | String a s' => PyStr.isspace a && all_space s'
  end.

(** A project line as the grammar of [_PROJECT_LINE_RE] reads it: the
    keyword, the type GUID, the name, the path, the project GUID, white
    space [ws1] .. [ws6] around the equals sign and the commas, and
    whatever follows. *)
Definition project_line_text (kw g1 ws1 ws2 nm ws3 ws4 pa ws5 ws6 g2
                              tail : string) : string :=
  kw +:+ String "(" (String dquote (String "{" (g1 +:+
  String "}" (String dquote (String ")" (ws1 +:+
  String "=" (ws2 +:+
  String dquote (nm +:+ String dquote (ws3 +:+
  String "," (ws4 +:+
  String dquote (pa +:+ String dquote (ws5 +:+
  String "," (ws6 +:+
  String dquote (String "{" (g2 +:+
  String "}" (String dquote tail)))))))))))))))).

(** A non-empty text free of the character [c]. *)
Definition word_without (c : ascii) (s : string) : bool :=
  negb (String.eqb s EmptyString) && negb (has_char c s).

(** Runs the literal steps of the matcher. *)
Ltac eat_steps :=
  repeat (progress (cbn [Re.eat mbind option_bind fst snd];
                    rewrite ?Ascii.eqb_refl)).

(** ** The command line *)

(** [p.suffix]: the last dot of the name and what follows it, when the dot
    is neither the first nor the last character. *)
Definition suffix (p : Path) : string :=
  let n := PathLib.name p in
  let i := PyStr.rfind "." n in
  if (0 <? i)%Z && (i <? Z.of_nat (String.length n) - 1)%Z
  then PyStr.slice_from n i else EmptyString.

(** The order [sorted] puts paths in: the lists of components (the root
    first for an absolute path) compared as Python compares lists of
    strings. *)
Fixpoint parts_leb (a b : list string) : bool :=
  match a, b with
  | [], _ => true
  | _ :: _, [] => false
  | x :: a', y :: b' =>
      if String.eqb x y then parts_leb a' b' else String.leb x y
  end.

Definition sort_key (p : Path) : list string :=
  (if is_abs p then ["/"] else []) ++ parts p.

Definition path_le (p q : Path) : Prop :=
  parts_leb (sort_key p) (sort_key q) = true.

#[global] Instance path_le_dec (p q : Path) : Decision (path_le p q) :=
  bool_eq_dec _ _.

Definition sorted (l : list Path) : list Path := merge_sort path_le l.

(** [_collect_sln_files(target)]. *)
Definition _collect_sln_files (w : world) (target : Path)
  : outcome (list Path) :=
  if is_file w target && String.eqb (PyStr.lower (suffix target)) ".sln"
  then Ok [target]
  else if is_dir w target then Ok (sorted (rglob w target ".sln"))
  else
    _ ← log_debug w ["file"];
    Ok [].

(** What a run writes: a line on standard error, or the JSON text of a
    solution set on standard output (kept as the value it serialises). *)
Inductive output : Type :=
| Stderr (line : string)
| PrintJson (solution_set : SolutionSet).

Definition no_solutions_line (target : Path) : string :=
  "[INFO] No .sln files to process under " +:+ PathLib.str target.

(** The part [parse_from_argv] and [parse_from_target_path] share, from
    [_collect_sln_files] on. *)
Definition report (w : world) (target : Path) : outcome (list output * Z) :=
  sln_files ← _collect_sln_files w target;
  match sln_files with
  | [] => Ok ([Stderr (no_solutions_line target)], 0%Z)
  | _ :: _ =>
      solution_set ← discover_solution_set w target;
      Ok ([PrintJson solution_set], 0%Z)
  end.

(** [parse_from_argv(argv)]; [sys_argv] is [sys.argv], read when [argv] is
    [None]. *)
Definition parse_from_argv (w : world) (sys_argv : list string)
    (argv : option (list string)) : outcome (list output * Z) :=
  let argv := match argv with
              | None => List.tl sys_argv
              | Some a => a
              end in
  match argv with
  | [] => Ok ([Stderr "Usage: parse_from_argv(<path-to-sln-or-folder>)"], 1%Z)
  | _ :: _ =>
      report w (resolve w (PathLib.of_str (String.concat EmptyString argv)))
  end.

(** [parse_from_target_path(target)]: the argument is overwritten by the
    working directory before it is read. *)
Definition parse_from_target_path (w : world) (target : Path)
  : outcome (list output * Z) :=
  let target := mkPath true (cwd w) in
  report w target.

(** The arguments a call works on. *)
Definition effective_argv (sys_argv : list string)
    (argv : option (list string)) : list string :=
  match argv with
  | None => List.tl sys_argv
  | Some a => a
  end.

Definition argv_target (w : world) (argv : list string) : Path :=
  resolve w (PathLib.of_str (String.concat EmptyString argv)).

(** ** Worlds whose files have proper paths *)

(** A component [pathlib] keeps as it is: not empty, not [.], free of
    slashes. *)
Definition proper_part (x : string) : bool :=
  PathLib.keep_part x && negb (has_char "/" x).

(** Every file lies in a folder other than the root, under an absolute path
    of proper components. *)
Definition proper_files (w : world) : bool :=
  forallb
    (fun q => negb (is_file w q)
              || (is_abs q && Nat.leb 2 (length (parts q))
                  && forallb proper_part (parts q)))
    (List.map fst (map_to_list (files w))).

(** ** The classifier as the specification words it *)

(** The table of the specification, keyed by the extension without its
    dot. *)
Definition spec_extension_table : list (string * Language) :=
  [ ("cs", CSharp); ("fs", FSharp); ("vb", VB); ("py", Python);
    ("java", Java); ("js", JavaScript);
    ("csproj", CSProject); ("vbproj", VBProject) ].

(** [c] is the letter [l] or the ASCII capital of [l]. *)
Definition letter_variant (c l : ascii) : bool :=
  Ascii.eqb c l
  || (PyStr.in_range 65 90 (nat_of_ascii c)
      && Nat.eqb (nat_of_ascii c + 32) (nat_of_ascii l)).

(** [e] spells the word [k], letter case apart. *)
Fixpoint case_variant (e k : string) : bool :=
  match e, k with
  | EmptyString, EmptyString => true
  | String c e', String l k' => letter_variant c l && case_variant e' k'
  | _, _ => false
  end.

Fixpoint all_dots (s : string) : bool :=
  match s with
  | EmptyString => true
  | String a s' => Ascii.eqb a "." && all_dots s'
  end.

(** What may stand before the name of a file: nothing, or a folder path
    that ends in a slash. *)
Definition dir_prefix (dir : string) : bool :=
  String.eqb dir EmptyString || PyStr.endswith dir "/".

(** [k] is made of the letters a to z. *)
Fixpoint small_letters (k : string) : bool :=
  match k with
  | EmptyString => true
  | String l k' =>
      PyStr.in_range 97 122 (nat_of_ascii l) && small_letters k'
  end.

(** * Properties *)

(** ** Paths *)

Section PathFacts.

Lemma norm_fold_no_dotdot (l acc : list string) :
  Forall (fun x => x ≠ "..") l ->
  fold_left PathLib.norm_step l acc = rev l ++ acc.
Proof.
  intros H. revert acc. induction H as [|x l Hx _ IH]; intros acc; [done|].
  cbn [fold_left]. unfold PathLib.norm_step at 2.
  destruct (String.eqb_spec x ".."); [done|].
  rewrite IH. cbn [rev]. by rewrite <- app_assoc.
Qed.

Lemma norm_fold_clean (l acc : list string) :
  Forall (fun x => x ≠ "..") acc ->
  Forall (fun x => x ≠ "..") (fold_left PathLib.norm_step l acc).
Proof.
  revert acc. induction l as [|x l IH]; intros acc Hacc; [done|].
  cbn [fold_left]. apply IH. unfold PathLib.norm_step.
  destruct (String.eqb_spec x "..").
  - destruct acc; [done|]. by inversion Hacc.
  - by constructor.
Qed.

Lemma normalize_idem (l : list string) :
  PathLib.normalize (PathLib.normalize l) = PathLib.normalize l.
Proof.
  unfold PathLib.normalize at 1.
  rewrite norm_fold_no_dotdot.
  - by rewrite app_nil_r, rev_involutive.
  - unfold PathLib.normalize. apply Forall_rev. by apply norm_fold_clean.
Qed.

(** Resolving a resolved path changes nothing. *)
Lemma resolve_idem (w : world) (p : Path) :
  resolve w (resolve w p) = resolve w p.
Proof. unfold resolve. f_equal. cbn [is_abs parts]. apply normalize_idem. Qed.

Lemma canon_resolved (w : world) (p : Path) :
  resolve w (canon w p) = canon w p.
Proof. unfold canon. apply resolve_idem. Qed.

End PathFacts.

(** ** Outcomes *)


Lemma bind_Ok {A B} (m : outcome A) (k : A -> outcome B) (b : B) :
  m ≫= k = Ok b -> exists a, m = Ok a /\ k a = Ok b.
Proof. destruct m; cbn; [eauto | done | done]. Qed.

Lemma bind_not_oof {A B} (m : outcome A) (k : A -> outcome B) :
  m ≠ OutOfFuel -> (forall a, m = Ok a -> k a ≠ OutOfFuel) ->
  m ≫= k ≠ OutOfFuel.
Proof. destruct m; cbn; [eauto | done | done]. Qed.

(** ** The loop over the [Compile] elements *)

Section CompileFacts.
Context (w : world) (proj_path : Path).

Lemma open_file_not_oof (p : Path) : open_file w p ≠ OutOfFuel.
Proof.
  unfold open_file. destruct (files w !! resolve w p) as [[d|]|]; try done.
  by destruct (readable d).
Qed.

Lemma ET_parse_not_oof (p : Path) : ET_parse w p ≠ OutOfFuel.
Proof.
  unfold ET_parse. apply bind_not_oof; [apply open_file_not_oof|].
  intros d _. by destruct (xml d).
Qed.

(** The shallow project record of the [Compile] loop is built with a
    keyword that is no field of [Project]: the constructor raises. *)
Lemma Project_init_stub (s : string) :
  Project_init ["file_name"] (Some s) None None None None = Raise TypeError.
Proof. reflexivity. Qed.

Lemma compile_item_not_oof item st :
  compile_item w proj_path item st ≠ OutOfFuel.
Proof.
  unfold compile_item.
  repeat (case_match; try done).
Qed.

Lemma compile_loop_not_oof items st :
  compile_loop w proj_path items st ≠ OutOfFuel.
Proof.
  revert st. induction items as [|i items IH]; intros st; cbn; [done|].
  apply bind_not_oof; [apply compile_item_not_oof | intros; apply IH].
Qed.

(** A [Compile] element that goes through leaves the child projects as
    they were. *)
Lemma compile_item_children item st st' :
  compile_item w proj_path item st = Ok st' -> snd st' = snd st.
Proof.
  unfold compile_item.
  repeat (case_match; try done); intros [= <-]; done.
Qed.

Lemma compile_loop_children items st st' :
  compile_loop w proj_path items st = Ok st' -> snd st' = snd st.
Proof.
  revert st. induction items as [|i items IH]; intros st; cbn.
  - by intros [= <-].
  - intros H. apply bind_Ok in H as (st1 & H1 & H2).
    rewrite (IH _ H2). by eapply compile_item_children.
Qed.

End CompileFacts.

(** The [Compile] loop of a project never hands child projects on. *)
Lemma compile_result_children (w : world) (proj_path : Path)
    (root : element) (st : list CodeFile * list Project) :
  compile_result w proj_path root = Ok st -> snd st = [].
Proof. intros H. by apply compile_loop_children in H. Qed.

(** ** The loop over the [ProjectReference] elements *)

Section RefsFacts.
Context (w : world).
Implicit Types rec : Path -> gset Path ->
                     outcome (Project * list Project * gset Path).

Lemma refs_loop_targets rec proj_path refs st :
  refs_loop rec w proj_path refs st =
  targets_loop rec
    (omap (fun ref =>
             inc ← PyStr.dict_lookup "Include" (attrib ref);
             Some (include_path w proj_path inc)) refs) st.
Proof.
  revert st. induction refs as [|ref refs IH]; intros st; [done|].
  cbn [refs_loop omap list_omap]. unfold ref_item.
  destruct (PyStr.dict_lookup "Include" (attrib ref)) as [inc|];
    cbn [mbind option_bind targets_loop].
  - unfold target_item. case_decide; cbn; [apply IH|].
    destruct (rec _ _) as [[[cp gc] v']| |]; cbn; [apply IH|done|done].
  - cbn. apply IH.
Qed.

(** A target that is already in [visited] is passed over, whoever put it
    there. *)
Lemma target_item_visited rec t st :
  t ∈ snd st -> target_item rec t st = Ok st.
Proof. intros H. unfold target_item. by rewrite decide_True. Qed.

Lemma targets_loop_visited rec ts st :
  Forall (fun t => t ∈ snd st) ts -> targets_loop rec ts st = Ok st.
Proof.
  induction 1 as [|t ts Ht _ IH]; [done|].
  cbn. by rewrite target_item_visited.
Qed.

Lemma target_item_fresh rec t cps v cp gc v' :
  t ∉ v -> rec t ({[t]} ∪ v) = Ok (cp, gc, v') ->
  target_item rec t (cps, v)
  = Ok (cps ++ [extend_child_projects cp gc], v').
Proof.
  intros Ht H. unfold target_item. cbn [snd fst].
  rewrite decide_False by done. by rewrite H.
Qed.

Lemma target_item_raise rec t cps v e :
  t ∉ v -> rec t ({[t]} ∪ v) = Raise e ->
  target_item rec t (cps, v) = Raise e.
Proof.
  intros Ht H. unfold target_item. cbn [snd fst].
  rewrite decide_False by done. by rewrite H.
Qed.

Lemma targets_loop_app rec ts1 ts2 st :
  targets_loop rec (ts1 ++ ts2) st
  = targets_loop rec ts1 st ≫= targets_loop rec ts2.
Proof.
  revert st. induction ts1 as [|t ts1 IH]; intros st; [done|].
  cbn. destruct (target_item rec t st); cbn; [apply IH|done|done].
Qed.

(** [visited] only grows along the loop, when each call lets it grow. *)
Lemma targets_loop_mono rec ts st st' :
  (forall p v x, rec p v = Ok x -> v ⊆ snd x) ->
  targets_loop rec ts st = Ok st' -> snd st ⊆ snd st'.
Proof.
  intros Hrec. revert st. induction ts as [|t ts IH]; intros st; cbn.
  - by intros [= <-].
  - intros H. apply bind_Ok in H as (st1 & H1 & H2).
    etrans; [|by apply IH]. clear H2.
    unfold target_item in H1. case_decide.
    + by injection H1 as <-.
    + apply bind_Ok in H1 as ([[cp gc] v1] & H1 & [= <-]).
      apply Hrec in H1. cbn in *. set_solver.
Qed.

(** The loop does not depend on the recursive call beyond its results. *)
Lemma targets_loop_ext rec1 rec2 ts st r :
  (forall p v x, rec1 p v = x -> x ≠ OutOfFuel -> rec2 p v = x) ->
  targets_loop rec1 ts st = r -> r ≠ OutOfFuel ->
  targets_loop rec2 ts st = r.
Proof.
  intros Hrec. revert st. induction ts as [|t ts IH]; intros st; cbn; [done|].
  unfold target_item. case_decide; cbn; [apply IH|].
  destruct (rec1 t _) as [[[cp gc] v1]| |] eqn:E1; cbn.
  - rewrite (Hrec _ _ _ E1) by done. cbn. apply IH.
  - rewrite (Hrec _ _ _ E1) by done. done.
  - intros <-. done.
Qed.

End RefsFacts.

(** ** [parse_proj]: unfolding, aliasing, the visited set, the budget *)

Section ParseProjFacts.
Context (w : world).

(** One call of [parse_proj], read on the views above. *)
Lemma parse_proj_unfold (f : nat) (p : Path) (v : gset Path) :
  parse_proj (S f) w p v =
  if negb (is_file w (canon w p)) then Raise FileNotFoundError
  else
    root ← ET_parse w (canon w p);
    st ← compile_result w (canon w p) root;
    st' ← targets_loop (parse_proj f w)
            (ref_targets w (canon w p) root) (snd st, v);
    Ok (build_project w (canon w p)
          (collected_source_files w (canon w p) root (fst st)) (fst st'),
        fst st', snd st').
Proof.
  cbn [parse_proj]. destruct (negb _); [done|].
  destruct (ET_parse w (canon w p)) as [root| |]; cbn; [|done|done].
  unfold compile_result.
  destruct (compile_loop _ _ _ _) as [[cfs cps]| |]; cbn; [|done|done].
  rewrite refs_loop_targets. fold (ref_targets w (canon w p) root).
  destruct (targets_loop _ _ _) as [[ch v']| |]; done.
Qed.

(** The list returned next to the project is the project's own list. *)
Lemma parse_proj_alias f p v proj cs v' :
  parse_proj f w p v = Ok (proj, cs, v') -> cs = child_projects proj.
Proof.
  destruct f; [done|]. rewrite parse_proj_unfold.
  destruct (negb _); [done|].
  intros H. apply bind_Ok in H as (root & _ & H).
  apply bind_Ok in H as (st & _ & H).
  apply bind_Ok in H as (st' & _ & H).
  by injection H as <- <- <-.
Qed.

(** [visited] never shrinks. *)
Lemma parse_proj_visited_mono f p v x :
  parse_proj f w p v = Ok x -> v ⊆ snd x.
Proof.
  revert p v x. induction f as [|f IH]; intros p v x; [done|].
  rewrite parse_proj_unfold. destruct (negb _); [done|].
  intros H. apply bind_Ok in H as (root & _ & H).
  apply bind_Ok in H as (st & _ & H).
  apply bind_Ok in H as (st' & H' & H).
  injection H as <-. cbn.
  by apply (targets_loop_mono _ _ _ _ IH) in H'.
Qed.

(** More budget does not change a result. *)
Lemma parse_proj_fuel_S f p v r :
  parse_proj f w p v = r -> r ≠ OutOfFuel -> parse_proj (S f) w p v = r.
Proof.
  revert p v r. induction f as [|f IH]; intros p v r.
  { cbn. by intros <-. }
  rewrite (parse_proj_unfold (S f)), (parse_proj_unfold f).
  destruct (negb _); [done|].
  destruct (ET_parse w (canon w p)) as [root| |]; obind; [|done|done].
  destruct (compile_result w (canon w p) root) as [st| |]; obind;
    [|done|done].
  destruct (targets_loop (parse_proj f w) _ _) as [st'| |] eqn:E; obind.
  - rewrite (targets_loop_ext _ _ _ _ _ IH E) by done. done.
  - rewrite (targets_loop_ext _ _ _ _ _ IH E) by done. done.
  - by intros <-.
Qed.

Lemma parse_proj_fuel_le f f' p v r :
  f <= f' -> parse_proj f w p v = r -> r ≠ OutOfFuel ->
  parse_proj f' w p v = r.
Proof.
  induction 1 as [|f' _ IH]; [done|].
  intros H Hr. apply parse_proj_fuel_S; auto.
Qed.

Lemma lookup_canon_file p root :
  ET_parse w (canon w p) = Ok root ->
  exists d, files w !! canon w p = Some (File d) /\ xml d = Some root.
Proof.
  unfold ET_parse, open_file. rewrite canon_resolved.
  destruct (files w !! canon w p) as [[d|]|]; try done.
  destruct (readable d); [|done]. cbn.
  destruct (xml d) eqn:E; [|done]. intros [= ->]. eauto.
Qed.

(** The targets of a project that parses are candidates. *)
Lemma ref_targets_candidates p root :
  ET_parse w (canon w p) = Ok root ->
  Forall (fun t => t ∈ candidates w) (ref_targets w (canon w p) root).
Proof.
  intros (d & Hd & Hx)%lookup_canon_file.
  apply Forall_forall. intros t Ht.
  unfold candidates. apply elem_of_list_to_set.
  apply list_elem_of_In, in_flat_map.
  exists (canon w p, File d). split.
  - apply list_elem_of_In. by apply elem_of_map_to_list.
  - unfold node_targets. cbn. rewrite Hx. by apply list_elem_of_In.
Qed.

Lemma targets_loop_not_oof f ts st :
  (forall p v, size (candidates w ∖ v) + 1 <= f ->
               parse_proj f w p v ≠ OutOfFuel) ->
  Forall (fun t => t ∈ candidates w) ts ->
  size (candidates w ∖ snd st) <= f ->
  targets_loop (parse_proj f w) ts st ≠ OutOfFuel.
Proof.
  intros IH Hts. revert st.
  induction Hts as [|t ts Ht _ IHts]; intros st Hst; [done|].
  cbn. apply bind_not_oof.
  - unfold target_item. case_decide; [done|].
    apply bind_not_oof; [|by intros [[??]?]].
    apply IH.
    assert (candidates w ∖ ({[t]} ∪ st.2) ⊂ candidates w ∖ st.2)
      as Hlt%subset_size by set_solver.
    lia.
  - intros st1 H1. apply IHts.
    assert (snd st ⊆ snd st1) as Hsub.
    { unfold target_item in H1. case_decide; [by injection H1 as <-|].
      apply bind_Ok in H1 as ([[cp gc] v1] & H1 & [= <-]).
      apply parse_proj_visited_mono in H1. cbn in *. set_solver. }
    assert (candidates w ∖ st1.2 ⊆ candidates w ∖ st.2)
      as Hle%subseteq_size by set_solver.
    lia.
Qed.

(** Termination: a budget above the number of unvisited candidates is
    never exhausted. *)
Lemma parse_proj_not_oof f p v :
  size (candidates w ∖ v) + 1 <= f -> parse_proj f w p v ≠ OutOfFuel.
Proof.
  revert p v. induction f as [|f IH]; intros p v Hf; [lia|].
  rewrite parse_proj_unfold. destruct (negb _); [done|].
  apply bind_not_oof; [apply ET_parse_not_oof|]. intros root Hroot.
  apply bind_not_oof; [apply compile_loop_not_oof|]. intros st _.
  apply bind_not_oof; [|done].
  apply targets_loop_not_oof; [done|by apply ref_targets_candidates|].
  cbn. lia.
Qed.

Theorem parse_proj_total p v : run_parse_proj w p v ≠ OutOfFuel.
Proof.
  apply parse_proj_not_oof. unfold enough_fuel.
  assert (candidates w ∖ v ⊆ candidates w) as H%subseteq_size
    by set_solver.
  lia.
Qed.

(** Whatever some budget yields is what the program yields. *)
Lemma run_parse_proj_eq f p v r :
  parse_proj f w p v = r -> r ≠ OutOfFuel -> run_parse_proj w p v = r.
Proof.
  intros H Hr. unfold run_parse_proj.
  destruct (Nat.le_ge_cases f (enough_fuel w)) as [Hle|Hge].
  - by eapply parse_proj_fuel_le.
  - pose proof (parse_proj_total p v) as Ht.
    pose proof (parse_proj_fuel_le _ _ _ _ _ Hge eq_refl Ht) as H'.
    unfold run_parse_proj in *. congruence.
Qed.

Lemma run_parse_proj_fuel f p v :
  enough_fuel w <= f -> parse_proj f w p v = run_parse_proj w p v.
Proof.
  intros Hf. eapply parse_proj_fuel_le; [done|done|apply parse_proj_total].
Qed.

End ParseProjFacts.

(** The fixed-point equation of [parse_proj] as the program runs it. *)
Lemma run_parse_proj_unfold (w : world) (p : Path) (v : gset Path) :
    run_parse_proj w p v =
    if negb (is_file w (canon w p)) then Raise FileNotFoundError
    else
      root ← ET_parse w (canon w p);
      st ← compile_result w (canon w p) root;
      st' ← targets_loop (run_parse_proj w)
              (ref_targets w (canon w p) root) (snd st, v);
      Ok (build_project w (canon w p)
            (collected_source_files w (canon w p) root (fst st)) (fst st'),
          fst st', snd st').
  Proof.
    rewrite <- (run_parse_proj_fuel w (S (enough_fuel w))) by lia.
    apply parse_proj_unfold.
  Qed.

(** ** The language classifier *)

(** The result read against what [splitext] and [lower] give: each
    [Language] value stands for one key of the table, Empty for a key that
    is not in it. *)
Lemma detect_language_table (file_name : string) :
  exists l : Language,
    _detect_language file_name = l /\
    let ext := PyStr.lower (snd (OsPath.splitext file_name)) in
    (l = CSharp <-> ext = ".cs") /\
    (l = FSharp <-> ext = ".fs") /\
    (l = VB <-> ext = ".vb") /\
    (l = Python <-> ext = ".py") /\
    (l = Java <-> ext = ".java") /\
    (l = JavaScript <-> ext = ".js") /\
    (l = CSProject <-> ext = ".csproj") /\
    (l = VBProject <-> ext = ".vbproj") /\
    (l = Empty <-> ~ In ext language_table_keys).
Proof.
  unfold _detect_language.
  set (ext := PyStr.lower _). clearbody ext.
  eexists; split; [reflexivity|]. cbv zeta.
  cbn [PyStr.dict_get language_table_keys In].
  table_case ext ".cs". table_case ext ".fs". table_case ext ".vb".
  table_case ext ".py". table_case ext ".java". table_case ext ".js".
  table_case ext ".csproj". table_case ext ".vbproj".
  repeat split; intros; solve [ done | discriminate | intuition congruence ].
Qed.

Example detect_language_samples :
  List.map _detect_language
    ["Foo.cs"; "Foo.xyz"; "Makefile"; "lib/Mod.FS"; "a.b/readme"; ".cs";
     "App.CsProj"; "Old.vbproj"; "x.tar.Vb"; "m.py"; "J.java"; "s.js"]
  = [CSharp; Empty; Empty; FSharp; Empty; Empty;
     CSProject; VBProject; VB; Python; Java; JavaScript].
Proof. reflexivity. Qed.

(** The extension of a plain file name is what follows its last dot. *)

Section SplitextFacts.
Import PyStr OsPath.

Lemma rfind_from_absent (c : ascii) (s : string) (i last : Z) :
  has_char c s = false -> rfind_from c s i last = last.
Proof.
  revert i last. induction s as [|a s IH]; intros i last; [done|].
  cbn [has_char rfind_from]. intros [Ha Hs]%orb_false_iff.
  rewrite Ha. by apply IH.
Qed.

Lemma rfind_from_app (c : ascii) (s1 s2 : string) (i last : Z) :
  rfind_from c (s1 +:+ s2) i last
  = rfind_from c s2 (i + Z.of_nat (String.length s1))%Z
      (rfind_from c s1 i last).
Proof.
  revert i last. induction s1 as [|a s1 IH]; intros i last.
  - cbn. by rewrite Z.add_0_r.
  - change (String a s1 +:+ s2) with (String a (s1 +:+ s2)).
    cbn [rfind_from String.length]. rewrite IH. f_equal. lia.
Qed.

Lemma substring_app_l (a b : string) :
  substring 0 (String.length a) (a +:+ b) = a.
Proof.
  induction a as [|c a IH]; [by destruct b|].
  change (String c a +:+ b) with (String c (a +:+ b)).
  cbn [String.length substring]. by rewrite IH.
Qed.

Lemma substring_whole (b : string) : substring 0 (String.length b) b = b.
Proof. induction b as [|d b IH]; [done|]. cbn. by rewrite IH. Qed.

Lemma substring_app_r (a b : string) :
  substring (String.length a) (String.length b) (a +:+ b) = b.
Proof.
  induction a as [|c a IH]; [apply substring_whole|].
  change (String c a +:+ b) with (String c (a +:+ b)).
  cbn [String.length substring]. apply IH.
Qed.

Lemma length_app_string (a b : string) :
  String.length (a +:+ b) = String.length a + String.length b.
Proof.
  induction a as [|c a IH]; [done|].
  change (String c a +:+ b) with (String c (a +:+ b)).
  cbn [String.length]. by rewrite IH.
Qed.

Lemma has_char_app (c : ascii) (a b : string) :
  has_char c (a +:+ b) = has_char c a || has_char c b.
Proof.
  induction a as [|d a IH]; [done|].
  change (String d a +:+ b) with (String d (a +:+ b)).
  cbn [has_char]. by rewrite IH, orb_assoc.
Qed.

Lemma splitext_plain (base e : string) :
  plain_stem base = true -> plain_suffix e = true ->
  splitext (base +:+ String "." e) = (base, String "." e).
Proof.
  unfold plain_stem, plain_suffix.
  destruct base as [|a base]; [done|].
  intros [Ha Hslash]%andb_true_iff [Hdot Hslash']%andb_true_iff.
  apply negb_true_iff in Ha, Hslash, Hdot, Hslash'.
  set (b := String a base) in *.
  assert (rfind "/" (b +:+ String "." e) = (-1)%Z) as Hsep.
  { unfold rfind. apply rfind_from_absent.
    rewrite has_char_app, Hslash. cbn [has_char orb]. by rewrite Hslash'. }
  assert (rfind "." (b +:+ String "." e) = Z.of_nat (String.length b))
    as Hdotidx.
  { unfold rfind. rewrite rfind_from_app. cbn [rfind_from Ascii.eqb].
    rewrite rfind_from_absent by done. cbn. lia. }
  unfold splitext. rewrite Hsep, Hdotidx.
  assert ((-1 <? Z.of_nat (String.length b))%Z = true) as ->
    by (apply Z.ltb_lt; lia).
  replace (Z.to_nat (-1 + 1)) with 0 by lia.
  replace (Z.to_nat (Z.of_nat (String.length b) - (-1 + 1)))
    with (String.length b) by lia.
  assert (scan_non_dot (b +:+ String "." e) 0 (String.length b) = true) as ->.
  { unfold b. change (String a base +:+ String "." e)
      with (String a (base +:+ String "." e)).
    cbn [String.length scan_non_dot String.get]. by rewrite Ha. }
  cbn [andb]. unfold slice_to, slice_from.
  rewrite Nat2Z.id, substring_app_l. f_equal.
  rewrite length_app_string.
  replace (String.length b + String.length (String "." e) - String.length b)
    with (String.length (String "." e)) by lia.
  apply substring_app_r.
Qed.

(** Plain names with a known extension, whatever the stem. *)
Lemma detect_language_plain (base e : string) :
  plain_stem base = true -> plain_suffix e = true ->
  _detect_language (base +:+ String "." e)
  = dict_get (lower (String "." e))
      [ (".cs", CSharp); (".fs", FSharp); (".vb", VB); (".py", Python);
        (".java", Java); (".js", JavaScript);
        (".csproj", CSProject); (".vbproj", VBProject) ]
      Empty.
Proof.
  intros Hb He. unfold _detect_language. by rewrite splitext_plain.
Qed.

Lemma detect_language_cs (base : string) :
  plain_stem base = true ->
  _detect_language (base +:+ ".cs") = CSharp
  /\ _detect_language (base +:+ ".CS") = CSharp
  /\ _detect_language (base +:+ ".vb") = VB
  /\ _detect_language (base +:+ ".csproj") = CSProject
  /\ _detect_language (base +:+ ".vbproj") = VBProject
  /\ _detect_language (base +:+ ".txt") = Empty.
Proof.
  intros Hb. repeat split; by rewrite detect_language_plain.
Qed.

End SplitextFacts.

(** ** The model at work *)

Example project_line_samples :
  List.map _PROJECT_LINE_RE_match
    [ Sample.project_line "App" "src\App\App.csproj";
      "project(" +:+ Sample.q +:+ "{A}" +:+ Sample.q +:+ ")=" +:+ Sample.q
        +:+ "My App" +:+ Sample.q +:+ "," +:+ Sample.q +:+ "a.vbproj"
        +:+ Sample.q +:+ "," +:+ Sample.q +:+ "{B}" +:+ Sample.q;
      "EndProject";
      " Project(" +:+ Sample.q +:+ "{A}" +:+ Sample.q +:+ ")";
      "Global" ]
  = [ Some ("App", "src\App\App.csproj"); Some ("My App", "a.vbproj");
      None; None; None ].
Proof. vm_compute. reflexivity. Qed.

Example discovery_sample :
  discover_solution_set Sample.repo (Sample.at_root ["repo"])
  = Ok (mkSolutionSet "/repo"
          [ mkSolution "/repo/Solution1" "App.sln"
              [ mkProject "/repo/Solution1/App.csproj" "/repo/Solution1" "App"
                  [ mkCodeFile "Program.cs" "/repo/Solution1/Program.cs"
                               CSharp ]
                  [ mkProject "/repo/Lib/Lib.csproj" "/repo/Lib" "Lib"
                      [] [] ] ] ]).
Proof. vm_compute. reflexivity. Qed.

(** ** Missing project files *)

(** C5. When the path, normalised as [parse_proj] does, is not an existing
    file, [parse_proj] raises [FileNotFoundError]: it neither returns a
    value nor passes over the path.  The failure reaches the immediate
    callers unchanged: the wrapper [_parse_project_file], and the reference
    loop of a [parse_proj] that recurses into the path. *)
Theorem parse_proj_missing_file (w : world) (p : Path) (v : gset Path) :
  is_file w (canon w p) = false ->
  run_parse_proj w p v = Raise FileNotFoundError
  /\ _parse_project_file w p = Raise FileNotFoundError
  /\ (forall cps vis, p ∉ vis ->
        target_item (run_parse_proj w) p (cps, vis) = Raise FileNotFoundError).
Proof.
  intros H.
  assert (forall v', run_parse_proj w p v' = Raise FileNotFoundError) as Hr.
  { intros v'. rewrite run_parse_proj_unfold. by rewrite H. }
  split; [apply Hr|]. split.
  - unfold _parse_project_file. by rewrite Hr.
  - intros cps vis Hvis. by apply target_item_raise.
Qed.

Lemma parse_proj_missing_file_witness :
  is_file Sample.cycle
    (canon Sample.cycle (Sample.at_root ["r"; "Missing.csproj"])) = false
  /\ run_parse_proj Sample.cycle (Sample.at_root ["r"; "Missing.csproj"]) ∅
     = Raise FileNotFoundError.
Proof.
  split; [vm_compute; reflexivity|].
  apply (parse_proj_missing_file Sample.cycle
           (Sample.at_root ["r"; "Missing.csproj"]) ∅).
  vm_compute; reflexivity.
Defined.

(** ** A file as the root of a discovery *)

Lemma rglob_not_dir (w : world) (dir : Path) (suffix : string) :
  is_dir w dir = false -> rglob w dir suffix = [].
Proof. intros H. unfold rglob. by rewrite H. Qed.

(** C10. When the start path is an existing file (a solution file, for one)
    and not a directory, the recursive glob beneath it finds nothing: no
    solution is resolved, the file itself included, and the [SolutionSet]
    comes back with an empty [solutions] list. *)
Theorem discover_file_root_empty (w : world) (p : Path) :
  is_file w (resolve w p) = true ->
  discover_solution_set w p
  = Ok (mkSolutionSet (PathLib.str (resolve w p)) []).
Proof.
  intros H. unfold discover_solution_set.
  rewrite rglob_not_dir; [done|].
  unfold is_file in H. unfold is_dir.
  by destruct (files w !! resolve w p) as [[d|]|].
Qed.

Lemma discover_file_root_empty_witness :
  is_file Sample.solutions
    (resolve Sample.solutions (Sample.at_root ["s"; "App.sln"])) = true
  /\ discover_solution_set Sample.solutions (Sample.at_root ["s"; "App.sln"])
     = Ok (mkSolutionSet "/s/App.sln" []).
Proof.
  split; [vm_compute; reflexivity|].
  apply (discover_file_root_empty Sample.solutions
           (Sample.at_root ["s"; "App.sln"])).
  vm_compute; reflexivity.
Defined.

(** ** Stale compile items *)

Section CompileItems.
Context (w : world) (proj_path : Path).

Lemma compile_loop_app items1 items2 st :
  compile_loop w proj_path (items1 ++ items2) st
  = compile_loop w proj_path items1 st ≫= compile_loop w proj_path items2.
Proof.
  revert st. induction items1 as [|i items1 IH]; intros st; [done|].
  cbn. destruct (compile_item w proj_path i st); obind; [apply IH|done|done].
Qed.

(** An element whose path is no existing file leaves the state alone. *)
Lemma compile_item_dangling item inc st :
  PyStr.dict_lookup "Include" (attrib item) = Some inc ->
  is_file w (include_path w proj_path inc) = false ->
  compile_item w proj_path item st = Ok st.
Proof.
  intros Hinc Hfile. unfold compile_item. rewrite Hinc.
  destruct (String.eqb inc EmptyString); [done|]. by rewrite Hfile.
Qed.

Lemma compile_loop_dangling pre item post inc st :
  PyStr.dict_lookup "Include" (attrib item) = Some inc ->
  is_file w (include_path w proj_path inc) = false ->
  compile_loop w proj_path (pre ++ item :: post) st
  = compile_loop w proj_path (pre ++ post) st.
Proof.
  intros Hinc Hfile. rewrite !compile_loop_app.
  destruct (compile_loop w proj_path pre st) as [st1| |]; obind; try done.
  cbn [compile_loop]. by rewrite (compile_item_dangling _ inc).
Qed.

Lemma compile_item_existing item st st' :
  Forall (names_existing_file w) (fst st) ->
  compile_item w proj_path item st = Ok st' ->
  Forall (names_existing_file w) (fst st').
Proof.
  intros Hst. unfold compile_item.
  destruct (PyStr.dict_lookup _ _) as [inc|]; [|by intros [= <-]].
  destruct (String.eqb inc EmptyString); [by intros [= <-]|].
  destruct (is_file w _) eqn:Hf; [|by intros [= <-]].
  destruct (is_project_language _); [done|].
  intros [= <-]. cbn [fst].
  destruct (is_source_language _); [|done].
  apply Forall_app. split; [done|]. constructor; [|done].
  by exists (include_path w proj_path inc).
Qed.

Lemma compile_loop_existing items st st' :
  Forall (names_existing_file w) (fst st) ->
  compile_loop w proj_path items st = Ok st' ->
  Forall (names_existing_file w) (fst st').
Proof.
  revert st. induction items as [|i items IH]; intros st Hst; cbn.
  - by intros [= <-].
  - intros (st1 & H1 & H2)%bind_Ok.
    eapply IH; [|done]. by eapply compile_item_existing.
Qed.

End CompileItems.

(** C9. A [Compile] element whose [Include] resolves to a path that is no
    existing file raises nothing and adds nothing: when the remaining
    [Compile] elements and the project references go through, [parse_proj]
    returns, and its project is the one those remaining elements give.  The
    code files collected from [Compile] elements are all built from existing
    files. *)
Theorem dangling_compile_item_skipped (w : world) (p : Path)
    (v : gset Path) (root : element) (pre post : list element)
    (item : element) (inc : string)
    (st : list CodeFile * list Project) (st' : list Project * gset Path) :
  is_file w (canon w p) = true ->
  ET_parse w (canon w p) = Ok root ->
  ET.findall_descendants root (ns_prefix_of root +:+ "Compile")
    = pre ++ item :: post ->
  PyStr.dict_lookup "Include" (attrib item) = Some inc ->
  is_file w (include_path w (canon w p) inc) = false ->
  compile_loop w (canon w p) (pre ++ post) ([], []) = Ok st ->
  targets_loop (run_parse_proj w) (ref_targets w (canon w p) root)
    (snd st, v) = Ok st' ->
  run_parse_proj w p v
  = Ok (build_project w (canon w p)
          (collected_source_files w (canon w p) root (fst st)) (fst st'),
        fst st', snd st')
  /\ Forall (names_existing_file w) (fst st).
Proof.
  intros Hfile Hroot Hitems Hinc Hgone Hrest Hrefs. split.
  - rewrite run_parse_proj_unfold, Hfile. cbn [negb]. rewrite Hroot. obind.
    unfold compile_result. rewrite Hitems.
    rewrite (compile_loop_dangling _ _ _ _ _ inc) by done.
    rewrite Hrest. obind. by rewrite Hrefs.
  - by eapply compile_loop_existing; [|exact Hrest].
Qed.

Lemma dangling_compile_item_skipped_witness :
  let w := Sample.dangling in
  let p := Sample.at_root ["r"; "App.csproj"] in
  let program := code_file_of (Sample.at_root ["r"; "Program.cs"]) in
  run_parse_proj w p ∅
  = Ok (build_project w (canon w p)
          (collected_source_files w (canon w p)
             (Sample.project_root false
                [Sample.compile "Gone.cs"; Sample.compile "Program.cs"])
             [program]) [],
        [], ∅)
  /\ Forall (names_existing_file w) [program].
Proof.
  intros w p program.
  apply (dangling_compile_item_skipped w p ∅
           (Sample.project_root false
              [Sample.compile "Gone.cs"; Sample.compile "Program.cs"])
           [] [Sample.compile "Program.cs"] (Sample.compile "Gone.cs")
           "Gone.cs" ([program], []) ([], ∅));
    vm_compute; reflexivity.
Defined.

Example dangling_result :
  match run_parse_proj Sample.dangling (Sample.at_root ["r"; "App.csproj"]) ∅
  with
  | Ok r => List.map cf_full_path (code_files (fst (fst r)))
  | _ => []
  end = ["/r/Program.cs"].
Proof. vm_compute. reflexivity. Qed.

(** ** The scan of the folder of an SDK project *)

Lemma rglob_spec (w : world) (dir : Path) (suffix : string) (q : Path) :
  In q (rglob w dir suffix) <->
  is_dir w dir = true /\ exists_on_disk w q = true /\ under dir q = true
  /\ dirs_between w dir q = true
  /\ PyStr.endswith (PathLib.name q) suffix = true.
Proof.
  unfold rglob. destruct (is_dir w dir).
  - rewrite filter_In, in_map_iff, !andb_true_iff. split.
    + intros [([q' n] & <- & Hin) [[H1 H2] H3]]. repeat split; try done.
      apply list_elem_of_In, elem_of_map_to_list in Hin.
      unfold exists_on_disk. cbn in *. by rewrite Hin.
    + intros (_ & Hex & H1 & H2 & H3). repeat split; try done.
      unfold exists_on_disk in Hex.
      destruct (files w !! q) as [n|] eqn:E; [|done].
      exists (q, n). split; [done|].
      by apply list_elem_of_In, elem_of_map_to_list.
  - cbn. intuition discriminate.
Qed.

(** C6. For a project whose root element carries the SDK marker and whose
    [Compile] loop collected no code file, [parse_proj] (when the project
    references go through) returns a project whose [code_files] is exactly
    the recursive enumeration of the entries of the project folder named
    [*.cs], then of those named [*.vb], each one resolved and classified by
    the language classifier. *)
Theorem sdk_fallback_scan (w : world) (p : Path) (v : gset Path)
    (root : element) (cps : list Project) (st' : list Project * gset Path) :
  is_file w (canon w p) = true ->
  ET_parse w (canon w p) = Ok root ->
  PyStr.dict_lookup "Sdk" (attrib root) = Some "Microsoft.NET.Sdk" ->
  compile_result w (canon w p) root = Ok ([], cps) ->
  targets_loop (run_parse_proj w) (ref_targets w (canon w p) root) (cps, v)
    = Ok st' ->
  let folder := PathLib.parent (canon w p) in
  exists proj,
    run_parse_proj w p v = Ok (proj, fst st', snd st')
    /\ code_files proj
       = List.map code_file_of
           (List.map (resolve w) (rglob w folder ".cs")
            ++ List.map (resolve w) (rglob w folder ".vb"))
    /\ (forall q, In q (rglob w folder ".cs" ++ rglob w folder ".vb") <->
          is_dir w folder = true /\ exists_on_disk w q = true
          /\ under folder q = true /\ dirs_between w folder q = true
          /\ (PyStr.endswith (PathLib.name q) ".cs" = true
              \/ PyStr.endswith (PathLib.name q) ".vb" = true)).
Proof.
  intros Hfile Hroot Hsdk Hcomp Hrefs folder.
  eexists. split; [|split].
  - rewrite run_parse_proj_unfold, Hfile. cbn [negb]. rewrite Hroot. obind.
    rewrite Hcomp. obind. cbn [fst snd]. rewrite Hrefs. obind. reflexivity.
  - cbn [build_project code_files]. unfold collected_source_files.
    unfold project_type_of. rewrite Hsdk. reflexivity.
  - intros q. rewrite in_app_iff, !rglob_spec. tauto.
Qed.

Lemma sdk_fallback_scan_witness :
  let w := Sample.sdk in
  let p := Sample.at_root ["app"; "App.csproj"] in
  exists proj,
    run_parse_proj w p ∅ = Ok (proj, [], ∅)
    /\ List.map cf_full_path (code_files proj)
       = ["/app/Program.cs"; "/app/Helpers/Util.cs"]
    /\ List.map language (code_files proj) = [CSharp; CSharp].
Proof.
  intros w p.
  destruct (sdk_fallback_scan w p ∅ (Sample.project_root true []) []
              ([], ∅)) as (proj & Hrun & Hfiles & _);
    try (vm_compute; reflexivity).
  exists proj. split; [exact Hrun|].
  rewrite Hfiles. split; vm_compute; reflexivity.
Defined.

(** ** Projects listed as compile items *)

(** C3.  [App.csproj] lists the existing [Lib.csproj] as a compile item:
    the [Include] resolves to an existing file that the classifier takes
    for a project.  The claim has [parse_proj] succeed with the item as a
    child project; the call raises [TypeError] instead, because the loop
    hands the [Project] constructor the keyword [file_name], which is no
    field, and leaves out four required fields. *)
Lemma nested_project_item_raises :
  let w := Sample.nested in
  let p := Sample.at_root ["r"; "App.csproj"] in
  is_file w (include_path w (canon w p) "Lib.csproj") = true
  /\ _detect_language "Lib.csproj" = CSProject
  /\ run_parse_proj w p ∅ = Raise TypeError
  /\ ~ (exists r, run_parse_proj w p ∅ = Ok r).
Proof.
  intros w p.
  assert (run_parse_proj w p ∅ = Raise TypeError) as H
    by (vm_compute; reflexivity).
  repeat split; try (vm_compute; reflexivity).
  intros [r Hr]. congruence.
Qed.

(** ** Which solution entries are forwarded *)

Section StringFacts.
Import PyStr.

Lemma prefix_refl (s : string) : String.prefix s s = true.
Proof.
  induction s as [|c s IH]; [done|]. cbn.
  destruct (ascii_dec c c); [done|congruence].
Qed.

Lemma contains_prefix (sub s : string) :
  String.prefix sub s = true -> contains sub s = true.
Proof. intros H. destruct s; cbn [contains]; by rewrite H. Qed.

Lemma contains_tail (sub : string) (c : ascii) (s : string) :
  contains sub s = true -> contains sub (String c s) = true.
Proof. intros H. cbn [contains]. rewrite H. apply orb_true_r. Qed.

Lemma endswith_contains (s suf : string) :
  endswith s suf = true -> contains suf s = true.
Proof.
  induction s as [|c s IH].
  - cbn [endswith]. rewrite orb_false_r. intros <-%String.eqb_eq. done.
  - cbn [endswith]. intros [<-%String.eqb_eq|H]%orb_true_iff.
    + apply contains_prefix, prefix_refl.
    + by apply contains_tail, IH.
Qed.

Lemma prefix_lower (a b : string) :
  String.prefix a b = true -> String.prefix (lower a) (lower b) = true.
Proof.
  revert b. induction a as [|c a IH]; intros b; [by destruct b|].
  destruct b as [|d b]; [by cbn|]. cbn [String.prefix lower].
  destruct (ascii_dec c d) as [->|]; [|done].
  intros H. destruct (ascii_dec _ _); [by apply IH|congruence].
Qed.

Lemma contains_lower (sub s : string) :
  contains sub s = true -> contains (lower sub) (lower s) = true.
Proof.
  induction s as [|c s IH].
  - cbn [contains lower]. rewrite !orb_false_r. apply (prefix_lower sub EmptyString).
  - cbn [contains lower].
    intros [H|H]%orb_true_iff; apply orb_true_iff.
    + left. by apply (prefix_lower sub (String c s)).
    + right. by apply IH.
Qed.

End StringFacts.

(** What the loop does with a matched line: the entry reaches
    [_parse_project_file] exactly when [is_supported_ref] accepts its text. *)
Lemma sln_loop_entry (w : world) (sln_path : Path) (line : string)
    (rest : text_stream) (projects : list Project) (nm pa : string) :
  _PROJECT_LINE_RE_match line = Some (nm, pa) ->
  sln_loop w sln_path (Line line rest) projects
  = if is_supported_ref (entry_text pa)
    then forward_entry w sln_path pa rest projects
    else sln_loop w sln_path rest projects.
Proof. intros H. cbn [sln_loop]. rewrite H. reflexivity. Qed.

(** C4, counterexample.  A path that merely contains [.csproj] is forwarded
    although it does not end in a project extension. *)
Lemma backup_entry_forwarded :
  is_supported_ref (entry_text "Old\App.csproj.bak") = true
  /\ ends_with_project_ext_ci (entry_text "Old\App.csproj.bak") = false.
Proof. split; vm_compute; reflexivity. Qed.

(** The test for [.vbproj] is made on the text as written: an upper-case
    extension is not recognised, unlike the same spelling of [.csproj]. *)
Remark upper_case_vbproj_ignored :
  is_supported_ref (entry_text "Lib\Lib.VBPROJ") = false
  /\ is_supported_ref (entry_text "Lib\Lib.vbproj") = true
  /\ is_supported_ref (entry_text "App\App.CSPROJ") = true.
Proof. repeat split; vm_compute; reflexivity. Qed.

Lemma supported_ref_by_substring (s : string) :
  (PyStr.contains ".csproj" (PyStr.lower s) = true ->
     is_supported_ref s = true)
  /\ (PyStr.contains ".vbproj" s = true -> is_supported_ref s = true)
  /\ (PyStr.endswith (PyStr.lower s) ".csproj" = true ->
        is_supported_ref s = true)
  /\ (PyStr.endswith s ".vbproj" = true -> is_supported_ref s = true)
  /\ (PyStr.contains ".csproj" (PyStr.lower s) = false ->
      PyStr.contains ".vbproj" (PyStr.lower s) = false ->
      is_supported_ref s = false).
Proof.
  unfold is_supported_ref. repeat split.
  - by intros ->.
  - intros ->. apply orb_true_r.
  - by intros ->%endswith_contains.
  - intros ->%endswith_contains. apply orb_true_r.
  - intros -> H. cbn [orb].
    destruct (PyStr.contains ".vbproj" s) eqn:E; [|done].
    apply contains_lower in E.
    change (PyStr.lower ".vbproj") with ".vbproj" in E. congruence.
Qed.

(** C4, amended.  An extracted solution line entry is forwarded to project
    resolution whenever the text of its path, lower-cased, contains
    [.csproj] anywhere, and whenever the text as written contains
    [.vbproj]; so every path ending in [.csproj] in any letter case and
    every path ending in lower-case [.vbproj] is forwarded.  An entry whose
    lower-cased text contains neither (a solution folder) is passed over. *)
Theorem solution_entry_forwarding (w : world) (sln_path : Path)
    (line : string) (rest : text_stream) (projects : list Project)
    (nm pa : string) :
  _PROJECT_LINE_RE_match line = Some (nm, pa) ->
  let s := entry_text pa in
  let forwarded :=
    sln_loop w sln_path (Line line rest) projects
    = forward_entry w sln_path pa rest projects in
  let ignored :=
    sln_loop w sln_path (Line line rest) projects
    = sln_loop w sln_path rest projects in
  (PyStr.contains ".csproj" (PyStr.lower s) = true -> forwarded)
  /\ (PyStr.contains ".vbproj" s = true -> forwarded)
  /\ (PyStr.endswith (PyStr.lower s) ".csproj" = true -> forwarded)
  /\ (PyStr.endswith s ".vbproj" = true -> forwarded)
  /\ (PyStr.contains ".csproj" (PyStr.lower s) = false ->
      PyStr.contains ".vbproj" (PyStr.lower s) = false -> ignored).
Proof.
  intros Hm s forwarded ignored. unfold forwarded, ignored.
  rewrite (sln_loop_entry _ _ _ _ _ _ _ Hm). fold s.
  destruct (supported_ref_by_substring s) as (H1 & H2 & H3 & H4 & H5).
  repeat split.
  - intros H. by rewrite H1.
  - intros H. by rewrite H2.
  - intros H. by rewrite H3.
  - intros H. by rewrite H4.
  - intros Ha Hb. by rewrite H5.
Qed.

Lemma solution_entry_forwarding_witness :
  let w := Sample.repo in
  let sln := Sample.at_root ["repo"; "Solution1"; "App.sln"] in
  let rest := Line (Sample.project_line "Docs" "Docs") Eof in
  sln_loop w sln (Line (Sample.project_line "App" "App.csproj") rest) []
  = forward_entry w sln "App.csproj" rest []
  /\ sln_loop w sln rest [] = sln_loop w sln Eof [].
Proof.
  intros w sln rest. split.
  - destruct (solution_entry_forwarding w sln
                (Sample.project_line "App" "App.csproj") rest [] "App"
                "App.csproj") as (H & _); [vm_compute; reflexivity|].
    apply H. vm_compute; reflexivity.
  - destruct (solution_entry_forwarding w sln
                (Sample.project_line "Docs" "Docs") Eof [] "Docs" "Docs")
      as (_ & _ & _ & _ & H); [vm_compute; reflexivity|].
    apply H; vm_compute; reflexivity.
Defined.

Example supported_ref_samples :
  List.map (fun pa => is_supported_ref (entry_text pa))
    ["src\App\App.csproj"; "Lib/Lib.vbproj"; "Tools/Gen.CsProj";
     "Solution Items"; "docs"; "Native/Core.vcxproj"]
  = [true; true; true; false; false; false].
Proof. vm_compute. reflexivity. Qed.

(** ** Solution files that cannot be read *)

Lemma open_file_raises_OSError (w : world) (p : Path) (e : exn) :
  open_file w p = Raise e -> is_OSError e = true.
Proof.
  unfold open_file. destruct (files w !! resolve w p) as [[d|]|].
  - destruct (readable d); [done|]. by intros [= <-].
  - by intros [= <-].
  - by intros [= <-].
Qed.

(** Reading stops at a decoding failure as it would at the end of the file;
    only the way the loop ends differs. *)
Lemma sln_loop_until_failure (w : world) (sln_path : Path)
    (fh : text_stream) (projects : list Project) :
  sln_loop w sln_path fh projects
  = let r := sln_loop w sln_path (until_failure fh) projects in
    (fst r,
     match snd r with
     | Ok _ => if ends_in_failure fh then Raise UnicodeDecodeError else Ok tt
     | other => other
     end).
Proof.
  revert projects. induction fh as [|line rest IH|]; intros projects.
  - reflexivity.
  - cbn [sln_loop until_failure ends_in_failure].
    destruct (_PROJECT_LINE_RE_match line) as [m|]; [|apply IH].
    destruct (is_supported_ref _); [|apply IH].
    destruct (_parse_project_file w _); [apply IH|reflexivity|reflexivity].
  - reflexivity.
Qed.

(** C7, counterexample.  [Broken.sln] does not decode as UTF-8, yet the
    solution that comes back holds the project of the line read before the
    failure. *)
Lemma broken_solution_keeps_projects :
  let w := Sample.solutions in
  let sln := Sample.at_root ["s"; "Broken.sln"] in
  cannot_be_read w sln = true
  /\ _parse_solution_file w sln
     = Ok (mkSolution "/s" "Broken.sln"
             [mkProject "/s/App.csproj" "/s" "App" [] []]).
Proof. split; vm_compute; reflexivity. Qed.

(** With DEBUG records enabled the handler itself raises: the [file]
    keyword it passes to [log_debug] is unknown to the logger. *)
Remark locked_solution_debug_raises :
  _parse_solution_file Sample.solutions_debug
    (Sample.at_root ["s"; "Locked.sln"]) = Raise TypeError
  /\ _parse_solution_file Sample.solutions
       (Sample.at_root ["s"; "Locked.sln"])
     = Ok (mkSolution "/s" "Locked.sln" []).
Proof. split; vm_compute; reflexivity. Qed.

(** [FileNotFoundError] is an [OSError]: raised by [parse_proj] for a
    project the solution names, it ends the line loop in the same handler,
    and the solution comes back with the projects resolved so far. *)
Remark missing_project_ends_solution :
  _parse_solution_file Sample.stale_solution (Sample.at_root ["t"; "All.sln"])
  = Ok (mkSolution "/t" "All.sln"
          [mkProject "/t/App.csproj" "/t" "App" [] []]).
Proof. vm_compute. reflexivity. Qed.

(** C7, amended.  With DEBUG records off, a solution file that cannot be
    opened, or whose text stops decoding, does not make
    [_parse_solution_file] fail: it returns a [Solution] carrying the folder
    path and the file name, whose projects are those resolved from the lines
    read before the failure; there are none when the file cannot be opened. *)
Theorem unreadable_solution_contained (w : world) (sln_path : Path)
    (ps : list Project) :
  debug_enabled w = false ->
  cannot_be_read w sln_path = true ->
  sln_loop w sln_path (readable_prefix w sln_path) [] = (ps, Ok tt) ->
  _parse_solution_file w sln_path
  = Ok (mkSolution (PathLib.str (resolve w (PathLib.parent sln_path)))
                   (PathLib.name sln_path) ps)
  /\ (forall e, open_file w sln_path = Raise e -> ps = []).
Proof.
  intros Hdbg Hread Hloop.
  unfold cannot_be_read in Hread. unfold readable_prefix in Hloop.
  unfold _parse_solution_file, sln_try, log_debug. rewrite Hdbg.
  destruct (open_file w sln_path) as [d|e|] eqn:Hopen; [| |done].
  - split; [|done].
    rewrite sln_loop_until_failure, Hloop, Hread. reflexivity.
  - cbn in Hloop. injection Hloop as <-. split; [|done].
    cbn [fst snd]. by rewrite (open_file_raises_OSError _ _ _ Hopen).
Qed.

Lemma unreadable_solution_contained_witness :
  let w := Sample.solutions in
  let sln := Sample.at_root ["s"; "Locked.sln"] in
  _parse_solution_file w sln = Ok (mkSolution "/s" "Locked.sln" []).
Proof.
  intros w sln.
  apply (unreadable_solution_contained w sln []); vm_compute; reflexivity.
Defined.

(** ** Shared and cyclic references *)

Section Graphs.
Context (w : world).

Lemma run_parse_proj_resolves p root cfs targets v :
  resolves w p root cfs targets ->
  run_parse_proj w p v
  = st' ← targets_loop (run_parse_proj w) targets ([], v);
    Ok (project_node w p root cfs (fst st'), fst st', snd st').
Proof.
  intros (Hfile & Hroot & Hcomp & Htargets).
  rewrite run_parse_proj_unfold, Hfile. cbn [negb]. rewrite Hroot. obind.
  rewrite Hcomp. obind. by rewrite Htargets.
Qed.



Lemma project_node_full_path p root cfs children :
  full_path (project_node w p root cfs children)
  = proj_full_path w (canon w p).
Proof. reflexivity. Qed.

Lemma extend_project_node p root cfs children more :
  extend_child_projects (project_node w p root cfs children) more
  = project_node w p root cfs (children ++ more).
Proof. reflexivity. Qed.

(** A project all of whose references are visited has no children. *)
Lemma run_parse_proj_all_visited p root cfs targets v :
  resolves w p root cfs targets ->
  Forall (fun t => t ∈ v) targets ->
  run_parse_proj w p v = Ok (project_node w p root cfs [], [], v).
Proof.
  intros Hp Hv. rewrite (run_parse_proj_resolves _ _ _ _ _ Hp).
  by rewrite targets_loop_visited.
Qed.

End Graphs.

(** C1, counterexample.  In the diamond R -> B, C -> D the project D is
    resolved under B, the sibling reached first, and is missing under C. *)
Lemma diamond_not_duplicated :
  match run_parse_proj Sample.diamond (Sample.at_root ["r"; "R.csproj"]) ∅
  with
  | Ok r =>
      List.map (fun c => (name c, List.map name (child_projects c)))
               (child_projects (fst (fst r)))
  | _ => []
  end = [("B", ["D"; "D"]); ("C", [])].
Proof. vm_compute. reflexivity. Qed.

(** C1, amended.  In a diamond resolved in one top-level call (the root
    references B then C, each of which references the same path D, and the
    resolution of D does not reach C), the returned tree holds the subtree
    of D under B, the sibling resolved first, and C comes back without child
    projects: [visited] keeps every path reached since the top-level call,
    so a path an earlier sibling visited is skipped like an ancestor. *)
Theorem diamond_second_sibling_skips (w : world) (r tB tC tD : Path)
    (rootR rootB rootC : element) (cfsR cfsB cfsC : list CodeFile)
    (dproj : Project) (dch : list Project) (vD : gset Path) :
  resolves w r rootR cfsR [tB; tC] ->
  resolves w tB rootB cfsB [tD] ->
  resolves w tC rootC cfsC [tD] ->
  tD ≠ tB ->
  run_parse_proj w tD {[tD; tB]} = Ok (dproj, dch, vD) ->
  tC ∉ vD ->
  exists nodeB nodeC v',
    run_parse_proj w r ∅
    = Ok (project_node w r rootR cfsR [nodeB; nodeC], [nodeB; nodeC], v')
    /\ full_path nodeB = proj_full_path w (canon w tB)
    /\ In (extend_child_projects dproj dch) (child_projects nodeB)
    /\ full_path nodeC = proj_full_path w (canon w tC)
    /\ child_projects nodeC = []
    /\ tD ∈ v'.
Proof.
  intros HR HB HC HDB HD HCD.
  pose proof (parse_proj_visited_mono _ _ _ _ _ HD) as Hmono. cbn in Hmono.
  set (nodeD := extend_child_projects dproj dch).
  assert (run_parse_proj w tB ({[tB]} ∪ ∅)
          = Ok (project_node w tB rootB cfsB [nodeD], [nodeD], vD)) as HrunB.
  { rewrite (run_parse_proj_resolves _ _ _ _ _ _ HB). cbn [targets_loop].
    rewrite (target_item_fresh _ _ _ _ dproj dch vD); [done|set_solver|].
    rewrite <- HD. f_equal. set_solver. }
  assert (run_parse_proj w tC ({[tC]} ∪ vD)
          = Ok (project_node w tC rootC cfsC [], [], {[tC]} ∪ vD)) as HrunC.
  { apply run_parse_proj_all_visited with (targets := [tD]); [done|].
    constructor; [set_solver|done]. }
  exists (project_node w tB rootB cfsB ([nodeD] ++ [nodeD])),
         (project_node w tC rootC cfsC ([] ++ [])), ({[tC]} ∪ vD).
  split.
  { rewrite (run_parse_proj_resolves _ _ _ _ _ _ HR). cbn [targets_loop].
    rewrite (target_item_fresh _ _ _ _ _ _ _ (not_elem_of_empty tB) HrunB).
    obind. rewrite (target_item_fresh _ _ _ _ _ _ _ HCD HrunC). obind.
    reflexivity. }
  repeat split; try reflexivity.
  - cbn. by left.
  - set_solver.
Qed.

Lemma diamond_second_sibling_skips_witness :
  let w := Sample.diamond in
  exists nodeB nodeC v',
    run_parse_proj w (Sample.at_root ["r"; "R.csproj"]) ∅
    = Ok (project_node w (Sample.at_root ["r"; "R.csproj"])
            (Sample.project_root false
               [Sample.reference "B.csproj"; Sample.reference "C.csproj"])
            [] [nodeB; nodeC],
          [nodeB; nodeC], v')
    /\ In (mkProject "/r/D.csproj" "/r" "D" [] []) (child_projects nodeB)
    /\ child_projects nodeC = [].
Proof.
  intros w.
  destruct (diamond_second_sibling_skips w
              (Sample.at_root ["r"; "R.csproj"])
              (Sample.at_root ["r"; "B.csproj"])
              (Sample.at_root ["r"; "C.csproj"])
              (Sample.at_root ["r"; "D.csproj"])
              (Sample.project_root false
                 [Sample.reference "B.csproj"; Sample.reference "C.csproj"])
              (Sample.project_root false [Sample.reference "D.csproj"])
              (Sample.project_root false [Sample.reference "D.csproj"])
              [] [] []
              (project_node w (Sample.at_root ["r"; "D.csproj"])
                 (Sample.project_root false []) [] [])
              []
              {[Sample.at_root ["r"; "D.csproj"];
                Sample.at_root ["r"; "B.csproj"]]})
    as (nodeB & nodeC & v' & Hrun & _ & HD & _ & HC & _).
  - repeat split; vm_compute; reflexivity.
  - repeat split; vm_compute; reflexivity.
  - repeat split; vm_compute; reflexivity.
  - discriminate.
  - apply run_parse_proj_all_visited with (targets := []); [|constructor].
    repeat split; vm_compute; reflexivity.
  - rewrite elem_of_union, !elem_of_singleton. intros [H|H]; discriminate H.
  - exists nodeB, nodeC, v'. split; [exact Hrun|]. split; [exact HD|exact HC].
Defined.


(** A further reference of B can break the claim as well: a path with
    backslashes is stored in [visited] as it is written and only
    normalised by the call it is handed to, so B, named by itself in that
    spelling, is resolved again and stands three times in the tree of A. *)
Remark mutual_reference_other_spelling :
  match run_parse_proj Fixture.other_spelling
          (Sample.at_root ["r"; "A.csproj"]) ∅
  with
  | Ok r =>
      (List.map (fun b => (name b, List.map name (child_projects b)))
                (child_projects (fst (fst r))),
       count_path "/r/B.csproj" (fst (fst r)))
  | _ => ([], 0)
  end = ([("B", ["A"; "B"; "A"; "B"])], 3).
Proof. vm_compute. reflexivity. Qed.


(** * Further properties of the resolver *)

(** ** Termination *)

(** X1. [parse_proj] terminates on every world, path and visited set:
    from [enough_fuel] on, every recursion budget gives one and the same
    outcome, and that outcome is a result or a Python exception. *)
Theorem parse_proj_terminates (w : world) (p : Path) (v : gset Path) :
  exists r,
    r ≠ OutOfFuel
    /\ forall fuel, enough_fuel w <= fuel -> parse_proj fuel w p v = r.
Proof.
  exists (run_parse_proj w p v). split; [apply parse_proj_total|].
  intros fuel Hfuel. by apply run_parse_proj_fuel.
Qed.

(** ** What the reference loop keeps *)

Section LoopInvariants.
Context (w : world).
Implicit Types rec : Path -> gset Path ->
                     outcome (Project * list Project * gset Path).

Lemma fold_and_Forall {A} (P : A -> Prop) (l : list A) :
  fold_right and True (List.map P l) <-> Forall P l.
Proof.
  induction l as [|x l IH]; cbn; [by split|].
  rewrite IH. split; [intros [? ?]; by constructor|by inversion 1].
Qed.

Lemma doubled_extend (cp : Project) :
  Forall doubled (child_projects cp) ->
  doubled (extend_child_projects cp (child_projects cp)).
Proof.
  intros H. destruct cp as [a b c d cs]. cbn in *.
  split; [by exists cs|]. apply fold_and_Forall. by apply Forall_app.
Qed.

Lemma target_item_inv rec t st st' :
  target_item rec t st = Ok st' ->
  (t ∈ snd st /\ st' = st)
  \/ exists cp gc v',
       (t ∉ snd st) /\ rec t ({[t]} ∪ snd st) = Ok (cp, gc, v')
       /\ st' = (fst st ++ [extend_child_projects cp gc], v').
Proof.
  unfold target_item. case_decide; [intros [= <-]; by left|].
  intros ([[cp gc] v'] & Hrec & [= <-])%bind_Ok. right. eauto 10.
Qed.

(** An invariant of the children that every recursive result re-establishes
    is kept by the loop. *)
Lemma targets_loop_children_inv rec (I : Project -> Prop) ts st st' :
  (forall p v cp gc v', rec p v = Ok (cp, gc, v') ->
                        I (extend_child_projects cp gc)) ->
  Forall I (fst st) ->
  targets_loop rec ts st = Ok st' -> Forall I (fst st').
Proof.
  intros Hrec. revert st. induction ts as [|t ts IH]; intros st Hst; cbn.
  - by intros [= <-].
  - intros (st1 & H1 & H2)%bind_Ok. eapply IH; [|exact H2].
    apply target_item_inv in H1
      as [[_ ->]|(cp & gc & v' & _ & Hr & ->)]; [done|].
    cbn. apply Forall_app. split; [done|]. constructor; [|done].
    by eapply Hrec.
Qed.

(** What one call of [parse_proj] that returns went through. *)
Lemma parse_proj_Ok_inv f p v proj cs v' :
  parse_proj (S f) w p v = Ok (proj, cs, v') ->
  exists root st,
    is_file w (canon w p) = true
    /\ ET_parse w (canon w p) = Ok root
    /\ compile_result w (canon w p) root = Ok (st, [])
    /\ targets_loop (parse_proj f w) (ref_targets w (canon w p) root) ([], v)
       = Ok (cs, v')
    /\ proj = build_project w (canon w p)
                (collected_source_files w (canon w p) root st) cs.
Proof.
  rewrite parse_proj_unfold. destruct (is_file w (canon w p)) eqn:Hf; [|done].
  cbn [negb]. intros (root & Hroot & H)%bind_Ok.
  apply bind_Ok in H as ([cfs cps] & Hst & H).
  apply bind_Ok in H as ([cs' v''] & Hloop & [= <- <- <-]).
  pose proof (compile_result_children _ _ _ _ Hst) as Hc. cbn in Hc. subst cps.
  exists root, cfs. done.
Qed.

Lemma parse_proj_doubled f p v proj cs v' :
  parse_proj f w p v = Ok (proj, cs, v') -> Forall doubled cs.
Proof.
  revert p v proj cs v'. induction f as [|f IH]; intros p v proj cs v'; [done|].
  intros (root & st & _ & _ & _ & Hloop & _)%parse_proj_Ok_inv.
  apply (targets_loop_children_inv _ doubled _ _ _) in Hloop; [done| |done].
  intros q vq cp gc vq' Hq.
  rewrite (parse_proj_alias _ _ _ _ _ _ _ Hq).
  apply doubled_extend. rewrite <- (parse_proj_alias _ _ _ _ _ _ _ Hq).
  by eapply IH.
Qed.

End LoopInvariants.

(** X2. In every tree [parse_proj] returns, each project below the root
    holds its children twice: the list of a child is some list followed by
    itself, at every depth (the caller extends the child's list with the
    list returned next to the child, which is that same list). *)
Theorem children_below_root_doubled (w : world) (p : Path) (v : gset Path)
    (proj : Project) (cs : list Project) (v' : gset Path) :
  run_parse_proj w p v = Ok (proj, cs, v') ->
  Forall doubled (child_projects proj).
Proof.
  intros H. rewrite <- (parse_proj_alias _ _ _ _ _ _ _ H).
  by eapply parse_proj_doubled.
Qed.

Lemma children_below_root_doubled_witness :
  let d := mkProject "/r/D.csproj" "/r" "D" [] [] in
  Forall doubled
    [mkProject "/r/B.csproj" "/r" "B" [] [d; d];
     mkProject "/r/C.csproj" "/r" "C" [] []].
Proof.
  intros d.
  pose (w := Sample.diamond). pose (p := Sample.at_root ["r"; "R.csproj"]).
  assert (match run_parse_proj w p ∅ with
          | Ok x => Some (child_projects x.1.1)
          | _ => None
          end
          = Some [mkProject "/r/B.csproj" "/r" "B" [] [d; d];
                  mkProject "/r/C.csproj" "/r" "C" [] []]) as Hp
    by (vm_compute; reflexivity).
  destruct (run_parse_proj w p ∅) as [[[proj cs] v']| |] eqn:E;
    [|discriminate Hp|discriminate Hp].
  injection Hp as <-.
  exact (children_below_root_doubled w p ∅ proj cs v' E).
Defined.

(** ** The visited set and the order of the children *)

Section VisitedFacts.
Context (w : world).
Implicit Types rec : Path -> gset Path ->
                     outcome (Project * list Project * gset Path).

Lemma targets_loop_covers rec ts st st' :
  (forall p v x, rec p v = Ok x -> v ⊆ snd x) ->
  targets_loop rec ts st = Ok st' ->
  snd st ⊆ snd st' /\ Forall (fun t => t ∈ snd st') ts.
Proof.
  intros Hrec. revert st. induction ts as [|t ts IH]; intros st; cbn.
  - intros [= <-]. by split.
  - intros (st1 & H1 & H2)%bind_Ok.
    destruct (IH _ H2) as [Hsub Hall].
    assert (snd st ⊆ snd st1 /\ t ∈ snd st1) as [Hs Ht].
    { apply target_item_inv in H1
        as [[Hin ->]|(cp & gc & v' & Hfresh & Hr & ->)]; [done|].
      apply Hrec in Hr. cbn in *. set_solver. }
    split; [set_solver|]. constructor; [set_solver|done].
Qed.

(** The children added by the loop come in the order of the targets, each
    carrying the full path of the target it was resolved from. *)
Lemma targets_loop_order rec ts st st' :
  (forall p v cp gc v', rec p v = Ok (cp, gc, v') ->
                        full_path cp = proj_full_path w (canon w p)) ->
  targets_loop rec ts st = Ok st' ->
  exists more,
    fst st' = fst st ++ more
    /\ sublist (List.map full_path more)
               (List.map (fun t => proj_full_path w (canon w t)) ts).
Proof.
  intros Hrec. revert st. induction ts as [|t ts IH]; intros st; cbn.
  - intros [= <-]. exists []. by rewrite app_nil_r.
  - intros (st1 & H1 & H2)%bind_Ok.
    destruct (IH _ H2) as (more & Hmore & Hsub).
    apply target_item_inv in H1
      as [[Hin ->]|(cp & gc & v' & Hfresh & Hr & ->)].
    + exists more. split; [done|]. by apply sublist_cons.
    + exists (extend_child_projects cp gc :: more). cbn in Hmore.
      split; [by rewrite Hmore, <- app_assoc|].
      cbn [List.map]. apply Hrec in Hr.
      replace (full_path (extend_child_projects cp gc)) with (full_path cp)
        by (by destruct cp).
      rewrite Hr. by apply sublist_skip.
Qed.

Lemma parse_proj_full_path f p v cp gc v' :
  parse_proj f w p v = Ok (cp, gc, v') ->
  full_path cp = proj_full_path w (canon w p).
Proof.
  destruct f; [done|].
  by intros (root & st & _ & _ & _ & _ & ->)%parse_proj_Ok_inv.
Qed.

End VisitedFacts.

(** X3. A call of [parse_proj] that returns leaves [visited] larger or
    equal, and holding every path the project's [ProjectReference] elements
    name: each one was either visited before or has been resolved. *)
Theorem visited_grows_and_covers (w : world) (p : Path) (v : gset Path)
    (root : element) (proj : Project) (cs : list Project) (v' : gset Path) :
  ET_parse w (canon w p) = Ok root ->
  run_parse_proj w p v = Ok (proj, cs, v') ->
  v ⊆ v' /\ Forall (fun t => t ∈ v') (ref_targets w (canon w p) root).
Proof.
  intros Hroot H. unfold run_parse_proj in H.
  destruct (enough_fuel w) as [|f]; [done|].
  apply parse_proj_Ok_inv in H
    as (root' & st & _ & Hroot' & _ & Hloop & _).
  assert (root' = root) as -> by congruence.
  apply targets_loop_covers in Hloop; [done|].
  intros q vq x Hx. by eapply parse_proj_visited_mono.
Qed.

Lemma visited_grows_and_covers_witness :
  match run_parse_proj Sample.cycle (Sample.at_root ["r"; "A.csproj"]) ∅ with
  | Ok x => Sample.at_root ["r"; "B.csproj"] ∈ snd x
  | _ => False
  end.
Proof.
  set (w := Sample.cycle). set (p := Sample.at_root ["r"; "A.csproj"]).
  assert (match run_parse_proj w p ∅ with Ok _ => true | _ => false end
          = true) as Hok by (vm_compute; reflexivity).
  destruct (run_parse_proj w p ∅) as [[[proj cs] v']| |] eqn:E;
    [clear Hok|discriminate Hok|discriminate Hok].
  - destruct (visited_grows_and_covers w p ∅
                (Sample.project_root false [Sample.reference "B.csproj"])
                proj cs v') as [_ Hall]; [vm_compute; reflexivity|exact E|].
    assert (ref_targets w (canon w p)
              (Sample.project_root false [Sample.reference "B.csproj"])
            = [Sample.at_root ["r"; "B.csproj"]]) as Ht
      by (vm_compute; reflexivity).
    rewrite Ht in Hall. apply Forall_cons in Hall as [Hin _].
    cbn [snd]. exact Hin.
Defined.

(** X4. The children of a resolved project follow the document order of
    its [ProjectReference] elements: their full paths form a subsequence of
    the full paths of the referenced projects (a reference is left out when
    its path was visited before).  So a project has at most one child per
    reference. *)
Theorem children_follow_references (w : world) (p : Path) (v : gset Path)
    (root : element) (proj : Project) (cs : list Project) (v' : gset Path) :
  ET_parse w (canon w p) = Ok root ->
  run_parse_proj w p v = Ok (proj, cs, v') ->
  sublist (List.map full_path (child_projects proj))
          (List.map (fun t => proj_full_path w (canon w t))
                    (ref_targets w (canon w p) root))
  /\ length (child_projects proj)
     <= length (ref_targets w (canon w p) root).
Proof.
  intros Hroot H.
  rewrite <- (parse_proj_alias _ _ _ _ _ _ _ H).
  unfold run_parse_proj in H.
  destruct (enough_fuel w) as [|f]; [done|].
  apply parse_proj_Ok_inv in H
    as (root' & st & _ & Hroot' & _ & Hloop & _).
  assert (root' = root) as -> by congruence.
  apply (targets_loop_order w) in Hloop as (more & Hmore & Hsub).
  - cbn in Hmore. subst cs. split; [done|].
    apply sublist_length in Hsub. by rewrite !length_map in Hsub.
  - intros q vq cp gc vq' Hq. by eapply parse_proj_full_path.
Qed.

Lemma children_follow_references_witness :
  match run_parse_proj Sample.diamond (Sample.at_root ["r"; "R.csproj"]) ∅
  with
  | Ok x => length (child_projects x.1.1) <= 2
  | _ => False
  end.
Proof.
  set (w := Sample.diamond). set (p := Sample.at_root ["r"; "R.csproj"]).
  assert (match run_parse_proj w p ∅ with Ok _ => true | _ => false end
          = true) as Hok by (vm_compute; reflexivity).
  destruct (run_parse_proj w p ∅) as [[[proj cs] v']| |] eqn:E;
    [clear Hok|discriminate Hok|discriminate Hok].
  - destruct (children_follow_references w p ∅
                (Sample.project_root false
                   [Sample.reference "B.csproj"; Sample.reference "C.csproj"])
                proj cs v') as [_ Hlen]; [vm_compute; reflexivity|exact E|].
    assert (length (ref_targets w (canon w p)
              (Sample.project_root false
                 [Sample.reference "B.csproj"; Sample.reference "C.csproj"]))
            = 2) as Hn by (vm_compute; reflexivity).
    rewrite Hn in Hlen. cbn [fst]. exact Hlen.
Defined.

(** ** The [Compile] loop in closed form *)

Section CompileClosedForm.
Context (w : world) (proj_path : Path).

Lemma compile_item_cases (item : element)
    (st : list CodeFile * list Project) :
  compile_item w proj_path item st
  = if is_project_item w proj_path item then Raise TypeError
    else Ok (fst st ++ option_list (source_file_of w proj_path item), snd st).
Proof.
  unfold compile_item, is_project_item, source_file_of, compile_target.
  destruct st as [cfs cps]. cbn [fst snd].
  destruct (PyStr.dict_lookup "Include" (attrib item)) as [inc|];
    [|by rewrite app_nil_r].
  destruct (String.eqb inc EmptyString); [by rewrite app_nil_r|].
  destruct (is_file w (include_path w proj_path inc));
    [|by rewrite app_nil_r].
  cbv zeta. unfold code_file_of.
  destruct (_detect_language _); cbn; by rewrite ?app_nil_r.
Qed.

Lemma compile_loop_cases (items : list element)
    (st : list CodeFile * list Project) :
  compile_loop w proj_path items st
  = if existsb (is_project_item w proj_path) items then Raise TypeError
    else Ok (fst st ++ omap (source_file_of w proj_path) items, snd st).
Proof.
  revert st. induction items as [|item items IH]; intros st.
  - cbn. rewrite app_nil_r. by destruct st.
  - cbn [compile_loop existsb]. rewrite compile_item_cases.
    destruct (is_project_item w proj_path item); [done|].
    obind. rewrite IH. cbn [orb fst snd].
    destruct (existsb _ items); [done|].
    rewrite <- app_assoc. do 2 f_equal.
    cbn [omap list_omap]. by destruct (source_file_of w proj_path item).
Qed.

End CompileClosedForm.

(** X5. The loop over the [Compile] elements has one of two outcomes.  When
    some element names an existing file classified as a project, it raises
    [TypeError].  Otherwise it returns, with the child projects as they
    were and the code files extended, in document order, by exactly the
    elements that name an existing C# or VB file; elements without
    [Include], with an empty one, naming no existing file or a file of
    another kind add nothing. *)
Theorem compile_loop_closed_form (w : world) (proj_path : Path)
    (items : list element) (st : list CodeFile * list Project) :
  compile_loop w proj_path items st
  = if existsb (is_project_item w proj_path) items then Raise TypeError
    else Ok (fst st ++ omap (source_file_of w proj_path) items, snd st).
Proof. apply compile_loop_cases. Qed.

(** X6. A project file that lists an existing [.csproj] or [.vbproj] file
    as a [Compile] item cannot be resolved: once the file is found and
    parsed, [parse_proj] raises [TypeError], whatever the visited set and
    whatever else the project holds. *)
Theorem project_compile_item_raises (w : world) (p : Path) (v : gset Path)
    (root : element) (item : element) :
  is_file w (canon w p) = true ->
  ET_parse w (canon w p) = Ok root ->
  In item (ET.findall_descendants root (ns_prefix_of root +:+ "Compile")) ->
  is_project_item w (canon w p) item = true ->
  run_parse_proj w p v = Raise TypeError.
Proof.
  intros Hfile Hroot Hin Hitem.
  rewrite run_parse_proj_unfold, Hfile. cbn [negb]. rewrite Hroot. obind.
  unfold compile_result. rewrite compile_loop_cases.
  assert (existsb (is_project_item w (canon w p))
            (ET.findall_descendants root (ns_prefix_of root +:+ "Compile"))
          = true) as ->; [|done].
  apply existsb_exists. eauto.
Qed.

Lemma project_compile_item_raises_witness :
  run_parse_proj Sample.nested (Sample.at_root ["r"; "App.csproj"]) ∅
  = Raise TypeError.
Proof.
  apply (project_compile_item_raises Sample.nested
           (Sample.at_root ["r"; "App.csproj"]) ∅
           (Sample.project_root false [Sample.compile "Lib.csproj"])
           (Sample.compile "Lib.csproj")).
  - vm_compute; reflexivity.
  - vm_compute; reflexivity.
  - vm_compute. by left.
  - vm_compute; reflexivity.
Defined.

(** ** The languages of the collected code files *)

Section LanguageFacts.
Import PyStr OsPath.

Lemma endswith_split (s suf : string) :
  endswith s suf = true -> exists pre, s = pre +:+ suf.
Proof.
  induction s as [|c s IH]; cbn [endswith].
  - rewrite orb_false_r. intros <-%String.eqb_eq. by exists EmptyString.
  - intros [<-%String.eqb_eq|H]%orb_true_iff; [by exists EmptyString|].
    destruct (IH H) as [pre ->]. by exists (String c pre).
Qed.

(** The extension of a name that ends in a dot and a dot-free word is that
    ending, or nothing at all. *)
Lemma splitext_known_ending (pre e : string) :
  has_char "." e = false ->
  snd (splitext (pre +:+ String "." e)) = String "." e
  \/ snd (splitext (pre +:+ String "." e)) = EmptyString.
Proof.
  intros He. unfold splitext.
  assert (rfind "." (pre +:+ String "." e) = Z.of_nat (String.length pre))
    as ->.
  { unfold rfind. rewrite rfind_from_app. cbn [rfind_from Ascii.eqb].
    rewrite rfind_from_absent by done. cbn. lia. }
  destruct (_ && _); [left|by right]. cbn [snd]. unfold slice_from.
  rewrite Nat2Z.id, length_app_string.
  replace (String.length pre + String.length (String "." e)
           - String.length pre)
    with (String.length (String "." e)) by lia.
  apply substring_app_r.
Qed.

Lemma detect_language_cs_ending (n : string) :
  endswith n ".cs" = true ->
  _detect_language n = CSharp \/ _detect_language n = Empty.
Proof.
  intros [pre ->]%endswith_split. unfold _detect_language.
  destruct (splitext_known_ending pre "cs" eq_refl) as [-> | ->];
    [by left|by right].
Qed.

Lemma detect_language_vb_ending (n : string) :
  endswith n ".vb" = true ->
  _detect_language n = VB \/ _detect_language n = Empty.
Proof.
  intros [pre ->]%endswith_split. unfold _detect_language.
  destruct (splitext_known_ending pre "vb" eq_refl) as [-> | ->];
    [by left|by right].
Qed.

Lemma endswith_length (s suf : string) :
  endswith s suf = true -> String.length suf <= String.length s.
Proof.
  intros [pre ->]%endswith_split. rewrite length_app_string. lia.
Qed.

(** Resolving keeps the name of a path whose name is not [..]. *)
Lemma name_resolve (w : world) (q : Path) :
  is_abs q = true -> parts q ≠ [] -> PathLib.name q ≠ ".." ->
  PathLib.name (resolve w q) = PathLib.name q.
Proof.
  intros Habs Hne Hname. unfold resolve, PathLib.name in *.
  rewrite Habs. cbn [parts].
  destruct (exists_last Hne) as (l & x & Hl). rewrite Hl in *.
  rewrite last_last in Hname. rewrite last_last.
  unfold PathLib.normalize. rewrite fold_left_app. cbn [fold_left].
  unfold PathLib.norm_step at 1.
  destruct (String.eqb_spec x ".."); [done|].
  cbn [rev]. apply last_last.
Qed.

Lemma rglob_name (w : world) (dir q : Path) (suffix : string) :
  In q (rglob w dir suffix) ->
  is_abs q = true /\ parts q ≠ []
  /\ endswith (PathLib.name q) suffix = true.
Proof.
  intros (_ & _ & Hunder & _ & Hend)%rglob_spec.
  unfold under in Hunder.
  apply andb_true_iff in Hunder as [[Habs _]%andb_true_iff Hlen].
  apply Nat.ltb_lt in Hlen.
  repeat split; [done| |done]. intros E. rewrite E in Hlen. cbn in Hlen. lia.
Qed.

Lemma sdk_entry_language (w : world) (dir q : Path) (suffix : string) :
  suffix = ".cs" \/ suffix = ".vb" ->
  In q (rglob w dir suffix) ->
  scanned_language (_detect_language (PathLib.name (resolve w q))).
Proof.
  intros Hs Hin.
  assert (is_abs q = true /\ parts q ≠ []
          /\ endswith (PathLib.name q) suffix = true) as (Habs & Hne & Hend).
  { by apply rglob_name in Hin. }
  rewrite name_resolve; [|done|done|].
  - unfold scanned_language. destruct Hs as [-> | ->].
    + apply detect_language_cs_ending in Hend. tauto.
    + apply detect_language_vb_ending in Hend. tauto.
  - intros E. rewrite E in Hend. by destruct Hs as [-> | ->].
Qed.

Lemma sdk_files_scanned (w : world) (ty : string) (dir : Path) :
  Forall (fun cf => scanned_language (language cf)) (_get_sdk_files w ty dir).
Proof.
  unfold _get_sdk_files. rewrite Forall_forall. intros cf Hcf.
  apply list_elem_of_In, in_map_iff in Hcf as (q' & <- & Hq').
  cbn [language].
  apply in_app_iff in Hq' as [Hq'|Hq'];
    apply in_map_iff in Hq' as (q & <- & Hq).
  - apply (sdk_entry_language w dir q ".cs"); [by left|done].
  - apply (sdk_entry_language w dir q ".vb"); [by right|done].
Qed.

Lemma source_file_language (w : world) (proj_path : Path) (item : element)
    (cf : CodeFile) :
  source_file_of w proj_path item = Some cf ->
  language cf = CSharp \/ language cf = VB.
Proof.
  unfold source_file_of. destruct (compile_target _ _ _) as [src|]; [|done].
  destruct (is_source_language _) eqn:E; [|done]. intros [= <-].
  cbn [code_file_of language]. unfold is_source_language in E.
  destruct (_detect_language _); try done; tauto.
Qed.

End LanguageFacts.

(** X7. Of the nine [Language] values only three ever reach the code files
    of a resolved project: every [CodeFile] of the project [parse_proj]
    returns is tagged CSharp, VB or Empty (Empty for an entry of the folder
    scan whose name is dots followed by [.cs] or [.vb]). *)
Theorem code_files_languages (w : world) (p : Path) (v : gset Path)
    (proj : Project) (cs : list Project) (v' : gset Path) :
  run_parse_proj w p v = Ok (proj, cs, v') ->
  Forall (fun cf => scanned_language (language cf)) (code_files proj).
Proof.
  unfold run_parse_proj. destruct (enough_fuel w) as [|f]; [done|].
  intros (root & cfs & _ & _ & Hcomp & _ & ->)%parse_proj_Ok_inv.
  cbn [build_project code_files]. unfold collected_source_files.
  destruct (_ && _); [apply sdk_files_scanned|].
  unfold compile_result in Hcomp. rewrite compile_loop_cases in Hcomp.
  destruct (existsb _ _); [done|]. injection Hcomp as <-. cbn.
  rewrite Forall_forall. intros cf Hcf.
  apply list_elem_of_omap in Hcf as (item & _ & Hitem).
  apply source_file_language in Hitem. unfold scanned_language. tauto.
Qed.

Lemma code_files_languages_witness :
  Forall (fun cf => scanned_language (language cf))
    [mkCodeFile "Program.cs" "/app/Program.cs" CSharp;
     mkCodeFile "Util.cs" "/app/Helpers/Util.cs" CSharp].
Proof.
  set (w := Sample.sdk). set (p := Sample.at_root ["app"; "App.csproj"]).
  assert (match run_parse_proj w p ∅ with
          | Ok x => Some (code_files x.1.1)
          | _ => None
          end
          = Some [mkCodeFile "Program.cs" "/app/Program.cs" CSharp;
                  mkCodeFile "Util.cs" "/app/Helpers/Util.cs" CSharp]) as Hp
    by (vm_compute; reflexivity).
  destruct (run_parse_proj w p ∅) as [[[proj cs] v']| |] eqn:E;
    [|discriminate Hp|discriminate Hp].
  injection Hp as <-.
  exact (code_files_languages w p ∅ proj cs v' E).
Defined.

(** X8. The folder scan never fails and never invents a language: on a
    path that is no directory it returns the empty list, and every
    [CodeFile] it returns is tagged CSharp, VB or Empty. *)
Theorem sdk_scan_total (w : world) (ty : string) (dir : Path) :
  (is_dir w dir = false -> _get_sdk_files w ty dir = [])
  /\ Forall (fun cf => scanned_language (language cf))
            (_get_sdk_files w ty dir).
Proof.
  split; [|apply sdk_files_scanned].
  intros H. unfold _get_sdk_files. by rewrite !rglob_not_dir.
Qed.

(** ** The solution resolver on the forwarded projects *)

Section SolutionFacts.
Context (w : world).

Lemma sln_loop_paths (sln_path : Path) (fh : text_stream)
    (projects : list Project) :
  sln_loop w sln_path fh projects
  = let r := projects_loop w (forwarded_paths w sln_path fh) projects in
    (fst r,
     match snd r with
     | Ok _ => if ends_in_failure fh then Raise UnicodeDecodeError else Ok tt
     | other => other
     end).
Proof.
  revert projects. induction fh as [|line rest IH|]; intros projects.
  - reflexivity.
  - cbn [sln_loop forwarded_paths ends_in_failure].
    destruct (_PROJECT_LINE_RE_match line) as [m|]; [|apply IH].
    destruct (is_supported_ref _); [|apply IH].
    cbn [projects_loop].
    destruct (_parse_project_file w _); [apply IH|reflexivity|reflexivity].
  - reflexivity.
Qed.

Lemma projects_loop_all (paths : list Path) (ps prs : list Project) :
  resolve_each w paths = Ok prs ->
  projects_loop w paths ps = (ps ++ prs, Ok tt).
Proof.
  revert ps prs. induction paths as [|q paths IH]; intros ps prs; cbn.
  - intros [= <-]. by rewrite app_nil_r.
  - intros (pr & Hq & H)%bind_Ok.
    apply bind_Ok in H as (prs' & Hrest & [= <-]).
    rewrite Hq, (IH _ _ Hrest). by rewrite <- app_assoc.
Qed.

Lemma projects_loop_first_failure (pre post : list Path) (q : Path)
    (ps prs : list Project) (e : exn) :
  resolve_each w pre = Ok prs ->
  _parse_project_file w q = Raise e ->
  projects_loop w (pre ++ q :: post) ps = (ps ++ prs, Raise e).
Proof.
  revert ps prs. induction pre as [|x pre IH]; intros ps prs; cbn.
  - intros [= <-] ->. by rewrite app_nil_r.
  - intros (pr & Hx & H)%bind_Ok Hq.
    apply bind_Ok in H as (prs' & Hrest & [= <-]).
    rewrite Hx, (IH _ _ Hrest Hq). by rewrite <- app_assoc.
Qed.

Lemma projects_loop_raise_inv (paths : list Path) (ps ps' : list Project)
    (e : exn) :
  projects_loop w paths ps = (ps', Raise e) ->
  exists q, In q paths /\ _parse_project_file w q = Raise e.
Proof.
  revert ps. induction paths as [|q paths IH]; intros ps; cbn; [done|].
  destruct (_parse_project_file w q) as [pr|e'|] eqn:Hq.
  - intros (q' & Hin & H)%IH. eauto.
  - intros [= _ ->]. eauto.
  - done.
Qed.

Lemma parse_project_file_not_oof (p : Path) :
  _parse_project_file w p ≠ OutOfFuel.
Proof.
  unfold _parse_project_file. apply bind_not_oof; [apply parse_proj_total|].
  by intros [[? ?] ?] _.
Qed.

Lemma projects_loop_not_oof (paths : list Path) (ps : list Project) :
  snd (projects_loop w paths ps) ≠ OutOfFuel.
Proof.
  revert ps. induction paths as [|q paths IH]; intros ps; cbn; [done|].
  pose proof (parse_project_file_not_oof q).
  destruct (_parse_project_file w q); [apply IH|done|done].
Qed.

Lemma parse_solution_file_not_oof (sln_path : Path) :
  _parse_solution_file w sln_path ≠ OutOfFuel.
Proof.
  unfold _parse_solution_file, sln_try.
  pose proof (open_file_not_oof w sln_path) as Hopen.
  destruct (open_file w sln_path) as [d|e|]; [| |done].
  - rewrite sln_loop_paths. cbn [fst snd].
    pose proof (projects_loop_not_oof
                  (forwarded_paths w sln_path (text d)) []) as Hl.
    destruct (snd (projects_loop w _ [])) as [[]|e|]; [| |done].
    + destruct (ends_in_failure (text d)); [|done]. cbn.
      unfold log_debug. by destruct (_ && _).
    + destruct (_ || _); [|done]. unfold log_debug. by destruct (_ && _).
  - cbn. destruct (_ || _); [|done]. unfold log_debug. by destruct (_ && _).
Qed.

Lemma parse_solution_file_Ok_shell (sln_path : Path) (s : Solution) :
  _parse_solution_file w sln_path = Ok s ->
  s = solution_shell w sln_path (projects s).
Proof.
  unfold _parse_solution_file, solution_shell.
  destruct (snd (sln_try w sln_path)) as [[]|e|]; [| |done].
  - by intros [= <-].
  - destruct (_ || _); [|done].
    destruct (log_debug w ["file"]); [|done|done]. by intros [= <-].
Qed.

Lemma discover_loop_not_oof (sln_files : list Path) (acc : list Solution) :
  discover_loop w sln_files acc ≠ OutOfFuel.
Proof.
  revert acc. induction sln_files as [|q rest IH]; intros acc; cbn; [done|].
  apply bind_not_oof; [apply parse_solution_file_not_oof|auto].
Qed.

End SolutionFacts.

(** X9. The wrapper, the solution resolver and the discovery driver all
    terminate: none of them exhausts the recursion budget, on any world and
    any path. *)
Theorem resolvers_terminate (w : world) (p : Path) :
  _parse_project_file w p ≠ OutOfFuel
  /\ _parse_solution_file w p ≠ OutOfFuel
  /\ discover_solution_set w p ≠ OutOfFuel.
Proof.
  split; [apply parse_project_file_not_oof|].
  split; [apply parse_solution_file_not_oof|].
  unfold discover_solution_set.
  apply bind_not_oof; [apply discover_loop_not_oof|done].
Qed.

(** X10. When the solution file opens and reads to its end, and every
    project it forwards resolves, the solution holds exactly one project
    per forwarded line, in line order, under the folder of the solution
    file and its file name. *)
Theorem solution_projects_in_line_order (w : world) (sln_path : Path)
    (d : file_data) (prs : list Project) :
  open_file w sln_path = Ok d ->
  ends_in_failure (text d) = false ->
  resolve_each w (forwarded_paths w sln_path (text d)) = Ok prs ->
  _parse_solution_file w sln_path = Ok (solution_shell w sln_path prs).
Proof.
  intros Hopen Hend Hall.
  unfold _parse_solution_file, sln_try. rewrite Hopen, sln_loop_paths.
  rewrite (projects_loop_all _ _ [] prs Hall). cbn [fst snd]. by rewrite Hend.
Qed.

Lemma solution_projects_in_line_order_witness :
  _parse_solution_file Sample.repo
    (Sample.at_root ["repo"; "Solution1"; "App.sln"])
  = Ok (mkSolution "/repo/Solution1" "App.sln"
          [ mkProject "/repo/Solution1/App.csproj" "/repo/Solution1" "App"
              [ mkCodeFile "Program.cs" "/repo/Solution1/Program.cs" CSharp ]
              [ mkProject "/repo/Lib/Lib.csproj" "/repo/Lib" "Lib" [] [] ] ]).
Proof.
  apply (solution_projects_in_line_order Sample.repo
           (Sample.at_root ["repo"; "Solution1"; "App.sln"])
           (mkFile true None
              (Line "Microsoft Visual Studio Solution File"
              (Line (Sample.project_line "App" "App.csproj")
              (Line "EndProject"
              (Line (Sample.project_line "Docs" "Docs")
              (Line "Global" Eof))))))
           [ mkProject "/repo/Solution1/App.csproj" "/repo/Solution1" "App"
               [ mkCodeFile "Program.cs" "/repo/Solution1/Program.cs"
                            CSharp ]
               [ mkProject "/repo/Lib/Lib.csproj" "/repo/Lib" "Lib"
                   [] [] ] ]);
    vm_compute; reflexivity.
Defined.

(** X11. With DEBUG records off, a forwarded project whose resolution
    raises an [OSError] (a missing project file raises
    [FileNotFoundError]) is not reported: the loop over the lines stops
    there, and the solution comes back holding the projects resolved before
    it, without the failing project and without any project named on a
    later line. *)
Theorem failing_project_truncates_solution (w : world) (sln_path : Path)
    (d : file_data) (pre post : list Path) (q : Path)
    (prs : list Project) (e : exn) :
  debug_enabled w = false ->
  open_file w sln_path = Ok d ->
  forwarded_paths w sln_path (text d) = pre ++ q :: post ->
  resolve_each w pre = Ok prs ->
  _parse_project_file w q = Raise e ->
  is_OSError e = true ->
  _parse_solution_file w sln_path = Ok (solution_shell w sln_path prs).
Proof.
  intros Hdbg Hopen Hpaths Hpre Hq He.
  unfold _parse_solution_file, sln_try. rewrite Hopen, sln_loop_paths, Hpaths.
  rewrite (projects_loop_first_failure _ _ _ _ [] prs e Hpre Hq).
  cbn [fst snd app]. rewrite He. cbn [orb].
  unfold log_debug. by rewrite Hdbg.
Qed.

Lemma failing_project_truncates_solution_witness :
  _parse_solution_file Sample.stale_solution (Sample.at_root ["t"; "All.sln"])
  = Ok (mkSolution "/t" "All.sln"
          [mkProject "/t/App.csproj" "/t" "App" [] []]).
Proof.
  apply (failing_project_truncates_solution Sample.stale_solution
           (Sample.at_root ["t"; "All.sln"])
           (mkFile true None
              (Line (Sample.project_line "App" "App.csproj")
              (Line (Sample.project_line "Gone" "Gone.csproj")
              (Line (Sample.project_line "Lib" "Lib.csproj") Eof))))
           [Sample.at_root ["t"; "App.csproj"]]
           [Sample.at_root ["t"; "Lib.csproj"]]
           (Sample.at_root ["t"; "Gone.csproj"])
           [mkProject "/t/App.csproj" "/t" "App" [] []]
           FileNotFoundError);
    vm_compute; reflexivity.
Defined.

(** X12. A failure of a forwarded project that is neither an [OSError]
    nor a [UnicodeDecodeError] is not contained: when the projects
    forwarded before it resolve, [_parse_solution_file] raises that very
    exception, with DEBUG records on or off, and returns no solution, so
    the projects resolved before it are lost to the caller. *)
Theorem project_failure_leaves_solution (w : world) (sln_path : Path)
    (d : file_data) (pre post : list Path) (q : Path)
    (prs : list Project) (e : exn) :
  open_file w sln_path = Ok d ->
  forwarded_paths w sln_path (text d) = pre ++ q :: post ->
  resolve_each w pre = Ok prs ->
  _parse_project_file w q = Raise e ->
  is_OSError e = false ->
  e <> UnicodeDecodeError ->
  _parse_solution_file w sln_path = Raise e.
Proof.
  intros Hopen Hpaths Hpre Hq Hos Hude.
  unfold _parse_solution_file, sln_try. rewrite Hopen, sln_loop_paths, Hpaths.
  rewrite (projects_loop_first_failure _ _ _ _ [] prs e Hpre Hq).
  cbn [fst snd app]. rewrite Hos. cbn [orb].
  by rewrite bool_decide_eq_false_2.
Qed.

Lemma project_failure_leaves_solution_witness :
  _parse_solution_file Fixture.poisoned (Sample.at_root ["p"; "Bad.sln"])
  = Raise TypeError.
Proof.
  apply (project_failure_leaves_solution Fixture.poisoned
           (Sample.at_root ["p"; "Bad.sln"])
           (mkFile true None
              (Line (Sample.project_line "App" "App.csproj") Eof))
           [] [] (Sample.at_root ["p"; "App.csproj"]) [] TypeError);
    try (vm_compute; reflexivity).
  discriminate.
Defined.

(** ** The discovery driver *)

Section DiscoveryFacts.
Context (w : world).

Lemma discover_loop_names (sln_files : list Path) (acc sols : list Solution) :
  discover_loop w sln_files acc = Ok sols ->
  exists more,
    sols = acc ++ more
    /\ List.map solution_name more = List.map PathLib.name sln_files
    /\ List.map sol_full_path more
       = List.map (fun q => PathLib.str (resolve w (PathLib.parent q)))
                  sln_files.
Proof.
  revert acc. induction sln_files as [|q rest IH]; intros acc; cbn.
  - intros [= <-]. exists []. by rewrite app_nil_r.
  - intros (s & Hs & H)%bind_Ok.
    destruct (IH _ H) as (more & -> & Hn & Hp).
    exists (s :: more). rewrite <- app_assoc. split; [done|].
    apply parse_solution_file_Ok_shell in Hs. rewrite Hs.
    cbn. by rewrite Hn, Hp.
Qed.

Lemma discover_loop_app (l1 l2 : list Path) (acc : list Solution) :
  discover_loop w (l1 ++ l2) acc
  = discover_loop w l1 acc ≫= discover_loop w l2.
Proof.
  revert acc. induction l1 as [|q l1 IH]; intros acc; [done|].
  cbn. destruct (_parse_solution_file w q); obind; [apply IH|done|done].
Qed.

End DiscoveryFacts.

(** X13. A discovery that returns gives one [Solution] per entry named
    [*.sln] below the resolved start path, in enumeration order: the
    solutions carry the names of those entries and the folders they lie
    in, and [start_path] is the text of the resolved start path.  When
    there is no such entry the set is empty. *)
Theorem discovery_one_solution_per_entry (w : world) (p : Path)
    (ss : SolutionSet) :
  discover_solution_set w p = Ok ss ->
  start_path ss = PathLib.str (resolve w p)
  /\ List.map solution_name (solutions ss)
     = List.map PathLib.name (rglob w (resolve w p) ".sln")
  /\ List.map sol_full_path (solutions ss)
     = List.map (fun q => PathLib.str (resolve w (PathLib.parent q)))
                (rglob w (resolve w p) ".sln")
  /\ (rglob w (resolve w p) ".sln" = [] -> solutions ss = []).
Proof.
  unfold discover_solution_set.
  intros (sols & Hloop & [= <-])%bind_Ok. cbn.
  split; [done|].
  destruct (discover_loop_names w _ _ _ Hloop) as (more & -> & Hn & Hp).
  cbn. repeat split; [done|done|].
  intros E. rewrite E in Hn. by destruct more.
Qed.

Lemma discovery_one_solution_per_entry_witness :
  let ss :=
    mkSolutionSet "/repo"
      [ mkSolution "/repo/Solution1" "App.sln"
          [ mkProject "/repo/Solution1/App.csproj" "/repo/Solution1" "App"
              [ mkCodeFile "Program.cs" "/repo/Solution1/Program.cs"
                           CSharp ]
              [ mkProject "/repo/Lib/Lib.csproj" "/repo/Lib" "Lib"
                  [] [] ] ] ] in
  List.map solution_name (solutions ss)
  = List.map PathLib.name
      (rglob Sample.repo (resolve Sample.repo (Sample.at_root ["repo"]))
             ".sln").
Proof.
  intros ss.
  apply (discovery_one_solution_per_entry Sample.repo
           (Sample.at_root ["repo"]) ss).
  vm_compute; reflexivity.
Defined.

(** X14. One failing solution fails the whole discovery: when the
    resolution of an entry raises (the [TypeError] or [ParseError] of one
    of its projects), [discover_solution_set] raises the same exception and
    returns no [SolutionSet], whatever the solutions resolved before it and
    the entries after it. *)
Theorem discovery_aborts_on_failure (w : world) (p : Path)
    (pre post : list Path) (q : Path) (sols : list Solution) (e : exn) :
  rglob w (resolve w p) ".sln" = pre ++ q :: post ->
  discover_loop w pre [] = Ok sols ->
  _parse_solution_file w q = Raise e ->
  discover_solution_set w p = Raise e.
Proof.
  intros Hglob Hpre Hq. unfold discover_solution_set.
  rewrite Hglob, discover_loop_app, Hpre. obind.
  cbn [discover_loop]. by rewrite Hq.
Qed.

Lemma discovery_aborts_on_failure_witness :
  discover_solution_set Fixture.poisoned (Sample.at_root ["p"])
  = Raise TypeError.
Proof.
  apply (discovery_aborts_on_failure Fixture.poisoned (Sample.at_root ["p"])
           [Sample.at_root ["p"; "Good.sln"]] []
           (Sample.at_root ["p"; "Bad.sln"])
           [mkSolution "/p" "Good.sln"
              [mkProject "/p/Lib.csproj" "/p" "Lib" [] []]]
           TypeError);
    vm_compute; reflexivity.
Defined.

(** ** The grammar of project lines *)

Section GrammarFacts.
Import PyStr Re.

Lemma eat_ci_app (pat kw s : string) :
  lower kw = lower pat -> eat_ci pat (kw +:+ s) = Some s.
Proof.
  revert kw. induction pat as [|c pat IH]; intros kw.
  - destruct kw; [done|discriminate].
  - destruct kw as [|a kw]; [discriminate|]. cbn [lower]. intros [= Ha Hk].
    change (String a kw +:+ s) with (String a (kw +:+ s)).
    cbn [eat_ci]. rewrite Ha, Ascii.eqb_refl. by apply IH.
Qed.

Lemma span_not_app (c : ascii) (x r : string) :
  has_char c x = false ->
  span_not c (x +:+ String c r) = (x, String c r).
Proof.
  induction x as [|a x IH].
  - intros _. change (EmptyString +:+ String c r) with (String c r).
    cbn [span_not]. by rewrite Ascii.eqb_refl.
  - cbn [has_char]. intros [Ha Hx]%orb_false_iff.
    change (String a x +:+ String c r) with (String a (x +:+ String c r)).
    cbn [span_not]. rewrite Ha. cbv zeta. by rewrite (IH Hx).
Qed.

Lemma many1_not_app (c : ascii) (x r : string) :
  word_without c x = true ->
  many1_not c (x +:+ String c r) = Some (x, String c r).
Proof.
  unfold word_without. intros [Hne Hc]%andb_true_iff.
  apply negb_true_iff in Hc. unfold many1_not. rewrite span_not_app by done.
  by destruct x.
Qed.

Lemma skip_space_app (ws : string) (c : ascii) (s : string) :
  all_space ws = true -> isspace c = false ->
  skip_space (ws +:+ String c s) = String c s.
Proof.
  intros Hws Hc. induction ws as [|a ws IH].
  - change (EmptyString +:+ String c s) with (String c s).
    cbn [skip_space]. by rewrite Hc.
  - cbn [all_space] in Hws. apply andb_true_iff in Hws as [Ha Hws].
    change (String a ws +:+ String c s) with (String a (ws +:+ String c s)).
    cbn [skip_space]. rewrite Ha. by apply IH.
Qed.

Lemma guid_app (g r : string) :
  word_without "}" g = true ->
  guid (String dquote (String "{" (g +:+ String "}" (String dquote r))))
  = Some r.
Proof.
  intros Hg. unfold guid. eat_steps.
  rewrite many1_not_app by done. by eat_steps.
Qed.

Lemma quoted_app (x r : string) :
  word_without dquote x = true ->
  quoted (String dquote (x +:+ String dquote r)) = Some (x, r).
Proof.
  intros Hx. unfold quoted. eat_steps.
  rewrite many1_not_app by done. by eat_steps.
Qed.

Lemma sep_app (c d : ascii) (ws ws' r : string) :
  all_space ws = true -> all_space ws' = true ->
  isspace c = false -> isspace d = false ->
  sep c (ws +:+ String c (ws' +:+ String d r)) = Some (String d r).
Proof.
  intros Hws Hws' Hc Hd. unfold sep.
  rewrite skip_space_app by done. eat_steps. by rewrite skip_space_app.
Qed.

End GrammarFacts.

(** X15. The line grammar round-trips: a line made of the keyword
    [Project] in any letter case, a quoted brace-wrapped GUID in
    parentheses, an equals sign, the quoted name, a comma, the quoted path,
    a comma and a second quoted GUID, with any white space around the
    equals sign and the commas and anything after the last quote, is
    matched, and the groups are the name and the path as written. *)
Theorem project_line_roundtrip
    (kw g1 ws1 ws2 nm ws3 ws4 pa ws5 ws6 g2 tail : string) :
  PyStr.lower kw = "project" ->
  word_without "}" g1 = true -> word_without "}" g2 = true ->
  word_without dquote nm = true -> word_without dquote pa = true ->
  all_space ws1 = true -> all_space ws2 = true -> all_space ws3 = true ->
  all_space ws4 = true -> all_space ws5 = true -> all_space ws6 = true ->
  _PROJECT_LINE_RE_match
    (project_line_text kw g1 ws1 ws2 nm ws3 ws4 pa ws5 ws6 g2 tail)
  = Some (nm, pa).
Proof.
  intros Hkw Hg1 Hg2 Hnm Hpa H1 H2 H3 H4 H5 H6.
  unfold _PROJECT_LINE_RE_match, project_line_text.
  rewrite eat_ci_app by done. eat_steps.
  rewrite guid_app by done. eat_steps.
  rewrite sep_app by done. eat_steps.
  rewrite quoted_app by done. eat_steps.
  rewrite sep_app by done. eat_steps.
  rewrite quoted_app by done. eat_steps.
  rewrite sep_app by done. eat_steps.
  by rewrite guid_app.
Qed.

Lemma project_line_roundtrip_witness :
  _PROJECT_LINE_RE_match
    (project_line_text "PROJECT" "FAE04EC0" " " (String (ascii_of_nat 9) " ")
       "My App" EmptyString " " "src\App\App.csproj" EmptyString "  "
       "6F1D2C3B" " # trailing")
  = Some ("My App", "src\App\App.csproj").
Proof.
  apply project_line_roundtrip; vm_compute; reflexivity.
Defined.

Section GrammarInversion.
Import PyStr Re.

Lemma eat_inv (c : ascii) (s r : string) :
  eat c s = Some r -> s = String c r.
Proof.
  destruct s as [|a s]; [done|]. cbn [eat].
  destruct (Ascii.eqb_spec a c) as [->|]; [|done]. by intros [= ->].
Qed.

Lemma eat_ci_inv (pat s r : string) :
  eat_ci pat s = Some r -> exists kw, s = kw +:+ r /\ lower kw = lower pat.
Proof.
  revert s. induction pat as [|p pat IH]; intros s; cbn [eat_ci].
  - intros [= ->]. by exists EmptyString.
  - destruct s as [|a s]; [done|].
    destruct (Ascii.eqb_spec (lower_char a) (lower_char p)) as [E|]; [|done].
    intros (kw & -> & Hkw)%IH. exists (String a kw). split; [done|].
    cbn [lower]. by rewrite E, Hkw.
Qed.

Lemma span_not_inv (c : ascii) (s : string) :
  s = fst (span_not c s) +:+ snd (span_not c s)
  /\ has_char c (fst (span_not c s)) = false.
Proof.
  induction s as [|a s [IH1 IH2]]; [done|]. cbn [span_not].
  destruct (Ascii.eqb_spec a c) as [->|Hne]; [done|]. cbv zeta. cbn [fst snd].
  split.
  - change (String a (span_not c s).1 +:+ (span_not c s).2)
      with (String a ((span_not c s).1 +:+ (span_not c s).2)).
    by rewrite <- IH1.
  - cbn [has_char]. rewrite IH2, orb_false_r. by apply Ascii.eqb_neq.
Qed.

Lemma many1_not_inv (c : ascii) (s x r : string) :
  many1_not c s = Some (x, r) ->
  s = x +:+ r /\ word_without c x = true.
Proof.
  unfold many1_not. destruct (span_not_inv c s) as [Hs Hc].
  destruct (span_not c s) as [y t]. cbn [fst snd] in *.
  destruct y as [|a y]; [done|]. intros [= <- <-]. split; [done|].
  unfold word_without. by rewrite Hc.
Qed.

Lemma skip_space_inv (s : string) :
  exists ws, s = ws +:+ skip_space s /\ all_space ws = true.
Proof.
  induction s as [|a s (ws & Hs & Hws)]; [by exists EmptyString|].
  cbn [skip_space]. destruct (isspace a) eqn:Ha.
  - exists (String a ws). split.
    + change (String a ws +:+ skip_space s)
        with (String a (ws +:+ skip_space s)). by rewrite <- Hs.
    + cbn [all_space]. by rewrite Ha.
  - by exists EmptyString.
Qed.

Lemma guid_inv (s r : string) :
  guid s = Some r ->
  exists g, s = String dquote (String "{" (g +:+ String "}" (String dquote r)))
            /\ word_without "}" g = true.
Proof.
  unfold guid.
  destruct (eat dquote s) as [s1|] eqn:E1; [|done]. cbn [mbind option_bind].
  destruct (eat "{" s1) as [s2|] eqn:E2; [|done]. cbn [mbind option_bind].
  destruct (many1_not "}" s2) as [[g s3]|] eqn:E3; [|done].
  cbn [mbind option_bind snd].
  destruct (eat "}" s3) as [s4|] eqn:E4; [|done]. cbn [mbind option_bind].
  intros E5.
  apply eat_inv in E1, E2, E4, E5. apply many1_not_inv in E3 as [E3 Hg].
  subst. by exists g.
Qed.

Lemma quoted_inv (s x r : string) :
  quoted s = Some (x, r) ->
  s = String dquote (x +:+ String dquote r) /\ word_without dquote x = true.
Proof.
  unfold quoted.
  destruct (eat dquote s) as [s1|] eqn:E1; [|done]. cbn [mbind option_bind].
  destruct (many1_not dquote s1) as [[y s2]|] eqn:E2; [|done].
  cbn [mbind option_bind snd fst].
  destruct (eat dquote s2) as [s3|] eqn:E3; [|done]. cbn [mbind option_bind].
  intros [= <- <-].
  apply eat_inv in E1, E3. apply many1_not_inv in E2 as [E2 Hy].
  by subst.
Qed.

Lemma sep_inv (c : ascii) (s r : string) :
  sep c s = Some r ->
  exists ws ws', s = ws +:+ String c (ws' +:+ r)
                 /\ all_space ws = true /\ all_space ws' = true.
Proof.
  unfold sep.
  destruct (eat c (skip_space s)) as [s1|] eqn:E1; [|done].
  cbn [mbind option_bind]. intros [= <-]. apply eat_inv in E1.
  destruct (skip_space_inv s) as (ws & Hs & Hws).
  destruct (skip_space_inv s1) as (ws' & Hs1 & Hws').
  exists ws, ws'. rewrite <- Hs1, <- E1. done.
Qed.

End GrammarInversion.

(** X16. Nothing but a project line is matched: when
    [_PROJECT_LINE_RE.match] succeeds, the line is the keyword (in some
    letter case), the parenthesised quoted GUID, the equals sign, the
    quoted name, the quoted path and the second quoted GUID, with white
    space only around the equals sign and the commas; the two groups are
    non-empty and hold no double quote, the GUIDs are non-empty and hold no
    closing brace. *)
Theorem project_line_match_shape (line nm pa : string) :
  _PROJECT_LINE_RE_match line = Some (nm, pa) ->
  exists kw g1 ws1 ws2 ws3 ws4 ws5 ws6 g2 tail,
    line = project_line_text kw g1 ws1 ws2 nm ws3 ws4 pa ws5 ws6 g2 tail
    /\ PyStr.lower kw = "project"
    /\ word_without "}" g1 = true /\ word_without "}" g2 = true
    /\ word_without dquote nm = true /\ word_without dquote pa = true
    /\ all_space ws1 = true /\ all_space ws2 = true
    /\ all_space ws3 = true /\ all_space ws4 = true
    /\ all_space ws5 = true /\ all_space ws6 = true.
Proof.
  unfold _PROJECT_LINE_RE_match.
  destruct (Re.eat_ci "Project" line) as [s1|] eqn:E1; [|done].
  cbn [mbind option_bind].
  destruct (Re.eat "(" s1) as [s2|] eqn:E2; [|done]. cbn [mbind option_bind].
  destruct (Re.guid s2) as [s3|] eqn:E3; [|done]. cbn [mbind option_bind].
  destruct (Re.eat ")" s3) as [s4|] eqn:E4; [|done]. cbn [mbind option_bind].
  destruct (Re.sep "=" s4) as [s5|] eqn:E5; [|done]. cbn [mbind option_bind].
  destruct (Re.quoted s5) as [[n s6]|] eqn:E6; [|done].
  cbn [mbind option_bind snd fst].
  destruct (Re.sep "," s6) as [s7|] eqn:E7; [|done]. cbn [mbind option_bind].
  destruct (Re.quoted s7) as [[q s8]|] eqn:E8; [|done].
  cbn [mbind option_bind snd fst].
  destruct (Re.sep "," s8) as [s9|] eqn:E9; [|done]. cbn [mbind option_bind].
  destruct (Re.guid s9) as [tail|] eqn:E10; [|done].
  cbn [mbind option_bind]. intros [= <- <-].
  apply eat_ci_inv in E1 as (kw & -> & Hkw).
  apply eat_inv in E2 as ->. apply guid_inv in E3 as (g1 & -> & Hg1).
  apply eat_inv in E4 as ->.
  apply sep_inv in E5 as (ws1 & ws2 & -> & H1 & H2).
  apply quoted_inv in E6 as [-> Hn].
  apply sep_inv in E7 as (ws3 & ws4 & -> & H3 & H4).
  apply quoted_inv in E8 as [-> Hq].
  apply sep_inv in E9 as (ws5 & ws6 & -> & H5 & H6).
  apply guid_inv in E10 as (g2 & -> & Hg2).
  exists kw, g1, ws1, ws2, ws3, ws4, ws5, ws6, g2, tail.
  repeat split; done.
Qed.

Lemma project_line_match_shape_witness :
  exists kw g1 ws1 ws2 ws3 ws4 ws5 ws6 g2 tail,
    Sample.project_line "App" "src\App\App.csproj"
    = project_line_text kw g1 ws1 ws2 "App" ws3 ws4 "src\App\App.csproj"
        ws5 ws6 g2 tail
    /\ PyStr.lower kw = "project".
Proof.
  destruct (project_line_match_shape
              (Sample.project_line "App" "src\App\App.csproj")
              "App" "src\App\App.csproj")
    as (kw & g1 & ws1 & ws2 & ws3 & ws4 & ws5 & ws6 & g2 & tail & H & Hk & _);
    [vm_compute; reflexivity|].
  by exists kw, g1, ws1, ws2, ws3, ws4, ws5, ws6, g2, tail.
Defined.

(** ** The command line *)

Section CommandLine.
Context (w : world).

Lemma parts_leb_total (a b : list string) :
  parts_leb a b = true \/ parts_leb b a = true.
Proof.
  revert b. induction a as [|x a IH]; intros [|y b]; cbn; auto.
  rewrite (String.eqb_sym y x).
  destruct (String.eqb x y); [apply IH|apply String.leb_total].
Qed.

#[local] Instance path_le_total : Total path_le.
Proof. intros p q. apply parts_leb_total. Qed.

Lemma sorted_Permutation (l : list Path) : sorted l ≡ₚ l.
Proof. apply merge_sort_Permutation. Qed.

Lemma sorted_nil_inv (l : list Path) : sorted l = [] -> l = [].
Proof.
  intros H. pose proof (sorted_Permutation l) as P. rewrite H in P.
  by apply Permutation_nil_l in P.
Qed.

Lemma is_file_not_dir (p : Path) : is_file w p = true -> is_dir w p = false.
Proof. unfold is_file, is_dir. by destruct (files w !! p) as [[]|]. Qed.

Lemma discover_no_entries (p : Path) :
  rglob w (resolve w p) ".sln" = [] ->
  discover_solution_set w p
  = Ok (mkSolutionSet (PathLib.str (resolve w p)) []).
Proof. unfold discover_solution_set. by intros ->. Qed.

Lemma discover_not_oof (p : Path) : discover_solution_set w p <> OutOfFuel.
Proof.
  unfold discover_solution_set.
  apply bind_not_oof; [apply discover_loop_not_oof|done].
Qed.

Lemma collect_not_oof (t : Path) : _collect_sln_files w t <> OutOfFuel.
Proof.
  unfold _collect_sln_files, log_debug.
  by repeat case_match.
Qed.

Lemma report_not_oof (t : Path) : report w t <> OutOfFuel.
Proof.
  unfold report. apply bind_not_oof; [apply collect_not_oof|].
  intros [|q l] _; [done|].
  apply bind_not_oof; [apply discover_not_oof|done].
Qed.

Lemma collect_dir (t : Path) :
  is_dir w t = true ->
  _collect_sln_files w t = Ok (sorted (rglob w t ".sln")).
Proof.
  intros Hd. unfold _collect_sln_files. rewrite Hd.
  destruct (is_file w t) eqn:Hf; [|done].
  apply is_file_not_dir in Hf. congruence.
Qed.

Lemma report_dir (t : Path) :
  is_dir w t = true ->
  report w t
  = match rglob w t ".sln" with
    | [] => Ok ([Stderr (no_solutions_line t)], 0%Z)
    | _ :: _ =>
        solution_set ← discover_solution_set w t;
        Ok ([PrintJson solution_set], 0%Z)
    end.
Proof.
  intros Hd. unfold report. rewrite (collect_dir t Hd). obind.
  destruct (sorted (rglob w t ".sln")) as [|q l] eqn:E.
  - by rewrite (sorted_nil_inv _ E).
  - destruct (rglob w t ".sln") as [|q' l'] eqn:E'; [|done].
    by vm_compute in E.
Qed.

Lemma report_Ok (t : Path) (out : list output) (rc : Z) :
  report w t = Ok (out, rc) -> rc = 0%Z /\ length out = 1.
Proof.
  unfold report. intros (l & Hl & H)%bind_Ok.
  destruct l; [by injection H as <- <-|].
  apply bind_Ok in H as (ss & _ & H). by injection H as <- <-.
Qed.

End CommandLine.

(** X17. A solution file given on the command line is not parsed: when the
    argument resolves to a file whose suffix is [.sln] in any letter case,
    [parse_from_argv] returns 0 and prints a solution set without
    solutions, whatever the file holds. *)
Theorem sln_file_argument_not_parsed (w : world) (sys_argv : list string)
    (a : string) (argv : list string) :
  is_file w (argv_target w (a :: argv)) = true ->
  PyStr.lower (suffix (argv_target w (a :: argv))) = ".sln" ->
  parse_from_argv w sys_argv (Some (a :: argv))
  = Ok ([PrintJson
           (mkSolutionSet (PathLib.str (argv_target w (a :: argv))) [])],
        0%Z).
Proof.
  intros Hf Hs. unfold parse_from_argv.
  fold (argv_target w (a :: argv)).
  set (t := argv_target w (a :: argv)) in *.
  unfold report, _collect_sln_files. rewrite Hf, Hs. cbn [andb String.eqb].
  replace (".sln" =? ".sln")%string with true by (vm_compute; reflexivity).
  obind.
  assert (resolve w t = t) as Ht by apply resolve_idem.
  rewrite discover_no_entries; rewrite Ht.
  - by obind.
  - apply rglob_not_dir. by apply is_file_not_dir.
Qed.

Lemma sln_file_argument_not_parsed_witness :
  parse_from_argv Fixture.shouting [] (Some ["/u/"; "App.SLN"])
  = Ok ([PrintJson (mkSolutionSet "/u/App.SLN" [])], 0%Z).
Proof.
  apply (sln_file_argument_not_parsed Fixture.shouting [] "/u/" ["App.SLN"]);
    vm_compute; reflexivity.
Defined.

(** X18. For a directory [_collect_sln_files] returns the entries named
    [*.sln] below it, each as often as the scan yields it, in ascending
    order of their components; every one of them lies below the
    directory. *)
Theorem collect_directory_sorted (w : world) (target : Path) :
  is_dir w target = true ->
  exists sln_files,
    _collect_sln_files w target = Ok sln_files
    /\ sln_files ≡ₚ rglob w target ".sln"
    /\ Sorted path_le sln_files
    /\ Forall (fun q => under target q = true
                        /\ PyStr.endswith (PathLib.name q) ".sln" = true)
              sln_files.
Proof.
  intros Hd. exists (sorted (rglob w target ".sln")).
  split; [by apply collect_dir|].
  split; [apply sorted_Permutation|].
  split; [apply Sorted_merge_sort; apply path_le_total|].
  apply Forall_forall. intros q Hq.
  rewrite (sorted_Permutation _) in Hq.
  apply list_elem_of_In, rglob_spec in Hq. tauto.
Qed.

Lemma collect_directory_sorted_witness :
  exists sln_files,
    _collect_sln_files Fixture.poisoned (Sample.at_root ["p"]) = Ok sln_files
    /\ sln_files ≡ₚ rglob Fixture.poisoned (Sample.at_root ["p"]) ".sln"
    /\ Sorted path_le sln_files
    /\ Forall (fun q => under (Sample.at_root ["p"]) q = true
                        /\ PyStr.endswith (PathLib.name q) ".sln" = true)
              sln_files.
Proof.
  apply (collect_directory_sorted Fixture.poisoned (Sample.at_root ["p"])).
  vm_compute; reflexivity.
Defined.

(** X19. With a directory argument [parse_from_argv] stands or falls with
    the discovery: it raises exactly the exception
    [discover_solution_set] raises; when it returns, the code is 0, and
    it wrote the notice on standard error if the scan found no [*.sln]
    entry, and otherwise the solution set of the discovery, which holds
    one solution per collected file. *)
Theorem directory_argument_follows_discovery (w : world)
    (sys_argv : list string) (a : string) (argv : list string) :
  let target := argv_target w (a :: argv) in
  is_dir w target = true ->
  (forall e, parse_from_argv w sys_argv (Some (a :: argv)) = Raise e
             <-> discover_solution_set w target = Raise e)
  /\ (forall out rc,
        parse_from_argv w sys_argv (Some (a :: argv)) = Ok (out, rc) ->
        rc = 0%Z
        /\ (rglob w target ".sln" = [] ->
            out = [Stderr (no_solutions_line target)])
        /\ (rglob w target ".sln" <> [] ->
            exists ss sln_files,
              discover_solution_set w target = Ok ss
              /\ out = [PrintJson ss]
              /\ _collect_sln_files w target = Ok sln_files
              /\ length (solutions ss) = length sln_files)).
Proof.
  intros target Hd. unfold parse_from_argv.
  fold (argv_target w (a :: argv)). fold target.
  rewrite (report_dir w target Hd).
  assert (resolve w target = target) as Ht by apply resolve_idem.
  destruct (rglob w target ".sln") as [|q l] eqn:E.
  - split.
    + intros e. split; [done|].
      rewrite discover_no_entries; [done|]. by rewrite Ht.
    + intros out rc [= <- <-]. split; [done|]. split; [done|]. by intros [].
  - split.
    + intros e. destruct (discover_solution_set w target); obind; split;
        congruence.
    + intros out rc (ss & Hss & [= <- <-])%bind_Ok.
      split; [done|]. split; [done|]. intros _.
      exists ss, (sorted (rglob w target ".sln")).
      split; [done|]. split; [done|]. split; [by apply collect_dir|].
      rewrite (Permutation_length (sorted_Permutation _)).
      unfold discover_solution_set in Hss.
      apply bind_Ok in Hss as (sols & Hl & [= <-]). rewrite Ht in Hl.
      apply discover_loop_names in Hl as (more & -> & Hn & _).
      cbn [solutions app].
      by rewrite <- (length_map solution_name), Hn, length_map.
Qed.

Lemma directory_argument_follows_discovery_witness :
  (forall e, parse_from_argv Fixture.poisoned [] (Some ["/p"]) = Raise e
             <-> discover_solution_set Fixture.poisoned
                   (Sample.at_root ["p"]) = Raise e)
  /\ parse_from_argv Fixture.poisoned [] (Some ["/p"]) = Raise TypeError.
Proof.
  destruct (directory_argument_follows_discovery Fixture.poisoned []
              "/p" []) as [H _]; [vm_compute; reflexivity|].
  split; [exact H|]. apply H. vm_compute; reflexivity.
Defined.

(** X20. An argument that is neither a directory nor a file with the
    suffix [.sln] ends in the notice and code 0 while DEBUG records are
    off; with DEBUG records on the warning of [_collect_sln_files] hands
    the logger a keyword it does not take, and the call raises
    [TypeError]. *)
Theorem other_argument_outcome (w : world) (sys_argv : list string)
    (a : string) (argv : list string) :
  let target := argv_target w (a :: argv) in
  is_dir w target = false ->
  is_file w target && String.eqb (PyStr.lower (suffix target)) ".sln"
  = false ->
  parse_from_argv w sys_argv (Some (a :: argv))
  = if debug_enabled w then Raise TypeError
    else Ok ([Stderr (no_solutions_line target)], 0%Z).
Proof.
  intros target Hd Hf. unfold parse_from_argv.
  fold (argv_target w (a :: argv)). fold target.
  unfold report, _collect_sln_files, log_debug. rewrite Hd, Hf.
  by destruct (debug_enabled w).
Qed.

Lemma other_argument_outcome_witness :
  parse_from_argv Fixture.repo_debug [] (Some ["/repo/Solution1/App.csproj"])
  = Raise TypeError
  /\ parse_from_argv Sample.repo [] (Some ["/repo/Solution1/App.csproj"])
     = Ok ([Stderr "[INFO] No .sln files to process under /repo/Solution1/App.csproj"],
           0%Z).
Proof.
  split.
  - apply (other_argument_outcome Fixture.repo_debug []
             "/repo/Solution1/App.csproj" []); vm_compute; reflexivity.
  - apply (other_argument_outcome Sample.repo []
             "/repo/Solution1/App.csproj" []); vm_compute; reflexivity.
Defined.

(** X21. [parse_from_argv] always comes to an end, and when it returns it
    has written exactly one item; the code is 1 when there is no argument
    to work on (the usage line) and 0 in every other case. *)
Theorem parse_from_argv_exit_code (w : world) (sys_argv : list string)
    (argv : option (list string)) :
  parse_from_argv w sys_argv argv <> OutOfFuel
  /\ forall out rc,
       parse_from_argv w sys_argv argv = Ok (out, rc) ->
       length out = 1
       /\ (effective_argv sys_argv argv = [] -> rc = 1%Z)
       /\ (effective_argv sys_argv argv <> [] -> rc = 0%Z).
Proof.
  unfold parse_from_argv. fold (effective_argv sys_argv argv).
  destruct (effective_argv sys_argv argv) as [|a l].
  - split; [done|]. by intros out rc [= <- <-].
  - split; [apply report_not_oof|].
    intros out rc [-> Hlen]%report_Ok. by repeat split.
Qed.

(** X22. [parse_from_target_path] does not look at its argument: whatever
    path it is given, it behaves as [parse_from_argv] does for the
    argument [.], provided the working directory is free of [..]
    components. *)
Theorem target_path_is_dot_argument (w : world) (sys_argv : list string)
    (target : Path) :
  PathLib.normalize (cwd w) = cwd w ->
  parse_from_target_path w target
  = parse_from_argv w sys_argv (Some ["."]).
Proof.
  intros Hn. unfold parse_from_target_path, parse_from_argv.
  cbv zeta. f_equal.
  unfold resolve.
  replace (PathLib.of_str (String.concat EmptyString ["."]))
    with (mkPath false []) by (vm_compute; reflexivity).
  cbn [is_abs parts]. by rewrite app_nil_r, Hn.
Qed.

Lemma target_path_is_dot_argument_witness :
  parse_from_target_path Sample.repo (Sample.at_root ["repo"])
  = parse_from_argv Sample.repo [] (Some ["."]).
Proof.
  apply (target_path_is_dot_argument Sample.repo [] (Sample.at_root ["repo"])).
  vm_compute; reflexivity.
Defined.

(** ** Paths and their text *)

Section PathText.
Import PyStr.

Lemma append_assoc (a b c : string) : (a +:+ b) +:+ c = a +:+ (b +:+ c).
Proof.
  induction a as [|x a IH]; [done|].
  change (String x (a +:+ b +:+ c) = String x ((a +:+ b) +:+ c) -> False)
    with (String x (a +:+ b +:+ c) <> String x ((a +:+ b) +:+ c)) in *.
  change ((String x a +:+ b) +:+ c) with (String x ((a +:+ b) +:+ c)).
  change (String x a +:+ b +:+ c) with (String x (a +:+ (b +:+ c))).
  by rewrite IH.
Qed.

Lemma split_plain (c : ascii) (x : string) :
  has_char c x = false -> split c x = [x].
Proof.
  induction x as [|a x IH]; [done|]. cbn [has_char split].
  intros [Ha Hx]%orb_false_iff. rewrite Ha, (IH Hx). done.
Qed.

Lemma split_cons (c : ascii) (x r : string) :
  has_char c x = false ->
  split c (x +:+ String c r) = x :: split c r.
Proof.
  induction x as [|a x IH].
  - intros _. change (EmptyString +:+ String c r) with (String c r).
    cbn [split]. by rewrite Ascii.eqb_refl.
  - cbn [has_char]. intros [Ha Hx]%orb_false_iff.
    change (String a x +:+ String c r) with (String a (x +:+ String c r)).
    cbn [split]. by rewrite Ha, (IH Hx).
Qed.

Lemma split_join (c : ascii) (ps : list string) :
  ps <> [] ->
  Forall (fun x => has_char c x = false) ps ->
  split c (join (String c EmptyString) ps) = ps.
Proof.
  induction ps as [|p ps IH]; [done|]. intros _ H.
  apply Forall_cons in H as [Hp Hps].
  destruct ps as [|p' ps]; [by apply split_plain|].
  change (join (String c EmptyString) (p :: p' :: ps))
    with (p +:+ String c (join (String c EmptyString) (p' :: ps))).
  rewrite split_cons by done. by rewrite IH.
Qed.

Lemma join_snoc (sep : string) (ps : list string) (n : string) :
  ps <> [] ->
  join sep ps +:+ sep +:+ n = join sep (ps ++ [n]).
Proof.
  induction ps as [|p ps IH]; [done|]. intros _.
  destruct ps as [|p' ps]; [done|].
  change (join sep (p :: p' :: ps)) with (p +:+ sep +:+ join sep (p' :: ps)).
  change (join sep ((p :: p' :: ps) ++ [n]))
    with (p +:+ sep +:+ join sep ((p' :: ps) ++ [n])).
  rewrite <- IH by done. by rewrite !append_assoc.
Qed.

Lemma proper_part_keep (x : string) :
  proper_part x = true ->
  PathLib.keep_part x = true /\ has_char "/" x = false.
Proof.
  unfold proper_part. intros [H1 H2]%andb_true_iff.
  by apply negb_true_iff in H2.
Qed.

Lemma filter_keep_all (ps : list string) :
  forallb proper_part ps = true -> List.filter PathLib.keep_part ps = ps.
Proof.
  induction ps as [|p ps IH]; [done|]. cbn [forallb List.filter].
  intros [[-> _]%proper_part_keep H]%andb_true_iff. by rewrite IH.
Qed.

(** [Path(str(p)) == p] for an absolute path of proper components. *)
Lemma of_str_str (ps : list string) :
  forallb proper_part ps = true ->
  PathLib.of_str (PathLib.str (mkPath true ps)) = mkPath true ps.
Proof.
  intros H. unfold PathLib.of_str, PathLib.str. cbn [is_abs parts].
  change ("/" +:+ join "/" ps) with (String "/" (join "/" ps)).
  f_equal; [by destruct (join "/" ps)|].
  cbn [split]. rewrite Ascii.eqb_refl. cbn [List.filter].
  change (PathLib.keep_part EmptyString) with false. cbv iota.
  destruct ps as [|p ps]; [done|].
  rewrite split_join; [by apply filter_keep_all|done|].
  apply Forall_forall. intros x Hx.
  apply forallb_forall with (x := x) in H; [|by apply list_elem_of_In].
  by apply proper_part_keep in H as [_ ?].
Qed.

End PathText.

Section ChildFolder.
Context (w : world).

Lemma proper_files_spec (q : Path) :
  proper_files w = true -> is_file w q = true ->
  is_abs q = true /\ 2 <= length (parts q)
  /\ forallb proper_part (parts q) = true.
Proof.
  unfold proper_files. intros H Hf.
  assert (In q (List.map fst (map_to_list (files w)))) as Hin.
  { unfold is_file in Hf. destruct (files w !! q) as [n|] eqn:E; [|done].
    apply in_map_iff. exists (q, n). split; [done|].
    apply list_elem_of_In. by apply elem_of_map_to_list. }
  apply forallb_forall with (x := q) in H; [|done].
  rewrite Hf in H. cbn [negb orb] in H.
  apply andb_true_iff in H as [[Ha Hl]%andb_true_iff Hp].
  apply Nat.leb_le in Hl. done.
Qed.

Lemma normalize_fixed_prefix (ps : list string) (n : string) :
  PathLib.normalize (ps ++ [n]) = ps ++ [n] -> PathLib.normalize ps = ps.
Proof.
  intros H.
  assert (Forall (fun x => x ≠ "..") (ps ++ [n])) as Hc.
  { rewrite <- H. unfold PathLib.normalize. apply Forall_rev.
    by apply norm_fold_clean. }
  apply Forall_app in Hc as [Hc _].
  unfold PathLib.normalize. rewrite norm_fold_no_dotdot by done.
  by rewrite app_nil_r, rev_involutive.
Qed.

(** The text [parse_proj] stores as [full_path] reads back as the path of
    the project file. *)
Lemma full_path_reads_back (q : Path) :
  is_abs q = true -> 2 <= length (parts q) ->
  forallb proper_part (parts q) = true ->
  resolve w q = q ->
  PathLib.of_str (proj_full_path w q) = q
  /\ resolve w (PathLib.parent q) = PathLib.parent q.
Proof.
  destruct q as [a qs]. cbn [is_abs parts]. intros -> Hlen Hp Hr.
  destruct (exists_last (l := qs)) as (ps & n & ->);
    [by intros ->; cbn in Hlen; lia|].
  assert (ps <> []) as Hps.
  { intros ->. cbn in Hlen. lia. }
  injection Hr as Hn. apply normalize_fixed_prefix in Hn.
  assert (resolve w (PathLib.parent (mkPath true (ps ++ [n])))
          = mkPath true ps) as Hpar.
  { unfold PathLib.parent, resolve. cbn [is_abs parts].
    by rewrite removelast_last, Hn. }
  unfold proj_full_path. rewrite Hpar. split.
  - unfold PathLib.name. cbn [parts]. rewrite last_last.
    rewrite <- (of_str_str (ps ++ [n]) Hp). f_equal.
    unfold PathLib.str. cbn [is_abs parts].
    rewrite append_assoc. f_equal. by apply join_snoc.
  - unfold PathLib.parent. cbn [is_abs parts]. by rewrite removelast_last.
Qed.

Lemma process_built_project (q : Path) (cfs : list CodeFile)
    (cs gc : list Project) :
  proper_files w = true -> is_file w q = true -> resolve w q = q ->
  _process_child_project w
    (extend_child_projects (build_project w q cfs cs) gc)
  = extend_child_projects (build_project w q cfs cs) gc.
Proof.
  intros Hw Hf Hr.
  destruct (proper_files_spec q Hw Hf) as (Ha & Hl & Hp).
  destruct (full_path_reads_back q Ha Hl Hp Hr) as [Hback Hpar].
  unfold _process_child_project, extend_child_projects, build_project.
  cbn [set_child_projects full_path set_project_folder_path child_projects].
  fold (proj_full_path w q). by rewrite Hback.
Qed.

Lemma parse_proj_children_fixed f p v proj cs v' :
  proper_files w = true ->
  parse_proj f w p v = Ok (proj, cs, v') ->
  Forall (fun c => _process_child_project w c = c) cs.
Proof.
  intros Hw. destruct f as [|f]; [done|].
  intros (root & st & _ & _ & _ & Hloop & _)%parse_proj_Ok_inv.
  apply (targets_loop_children_inv (parse_proj f w)
           (fun c => _process_child_project w c = c) _ _ _) in Hloop;
    [done| |done].
  intros t v0 cp gc v1 Hrec. destruct f as [|f]; [done|].
  apply parse_proj_Ok_inv in Hrec as (r & s & Hf & _ & _ & _ & ->).
  apply process_built_project; [done|done|apply canon_resolved].
Qed.

End ChildFolder.

(** X23. The folder the wrapper recomputes for each child is the folder
    [parse_proj] had already stored: in a world whose files have proper
    paths below the root, [_process_child_project] leaves every child of a
    successful [parse_proj] call as it is. *)
Theorem child_folder_recomputed_unchanged (w : world) (p : Path)
    (v : gset Path) (proj : Project) (cs : list Project) (v' : gset Path) :
  proper_files w = true ->
  run_parse_proj w p v = Ok (proj, cs, v') ->
  List.map (_process_child_project w) cs = cs.
Proof.
  intros Hw H. apply parse_proj_children_fixed in H; [|done].
  induction H as [|c cs Hc _ IH]; [done|]. cbn [List.map]. by rewrite Hc, IH.
Qed.

Lemma child_folder_recomputed_unchanged_witness :
  let d := mkProject "/r/D.csproj" "/r" "D" [] [] in
  let cs := [mkProject "/r/B.csproj" "/r" "B" [] [d; d];
             mkProject "/r/C.csproj" "/r" "C" [] []] in
  List.map (_process_child_project Sample.diamond) cs = cs.
Proof.
  intros d cs.
  set (w := Sample.diamond). set (p := Sample.at_root ["r"; "R.csproj"]).
  assert (match run_parse_proj w p ∅ with
          | Ok x => Some x.1.2
          | _ => None
          end = Some cs) as Hp by (vm_compute; reflexivity).
  destruct (run_parse_proj w p ∅) as [[[proj cs'] v']| |] eqn:E;
    [|discriminate Hp|discriminate Hp].
  injection Hp as <-.
  apply (child_folder_recomputed_unchanged w p ∅ proj cs' v');
    [vm_compute; reflexivity|exact E].
Defined.

Section WrapperFacts.
Context (w : world).

Lemma map_fixed {A} (f : A -> A) (l : list A) :
  Forall (fun x => f x = x) l -> List.map f l = l.
Proof.
  induction 1 as [|x l Hx _ IH]; [done|]. cbn [List.map]. by rewrite Hx, IH.
Qed.

Lemma run_parse_proj_built (p : Path) (v : gset Path) (proj : Project)
    (cs : list Project) (v' : gset Path) :
  run_parse_proj w p v = Ok (proj, cs, v') ->
  proj = build_project w (canon w p) (code_files proj) cs.
Proof.
  unfold run_parse_proj. destruct (enough_fuel w) as [|f]; [done|].
  by intros (root & st & _ & _ & _ & _ & ->)%parse_proj_Ok_inv.
Qed.

End WrapperFacts.

(** X24. What [_parse_project_file] adds to [parse_proj]: nothing but the
    paths and the name, which it computes from the path as given.  In a
    world whose files have proper paths below the root, the code files and
    the children of its result are those of the project [parse_proj]
    returns; and when the path given is already the one [parse_proj] works
    on (absolute, normalised, free of backslashes), the result is that
    very project. *)
Theorem wrapper_keeps_parse_proj_result (w : world) (p : Path)
    (proj : Project) (cs : list Project) (v' : gset Path) :
  proper_files w = true ->
  run_parse_proj w p ∅ = Ok (proj, cs, v') ->
  _parse_project_file w p
  = Ok (mkProject (proj_full_path w p)
                  (PathLib.str (resolve w (PathLib.parent p)))
                  (PathLib.stem p) (code_files proj) (child_projects proj))
  /\ (canon w p = p -> _parse_project_file w p = Ok proj).
Proof.
  intros Hw H.
  pose proof (parse_proj_children_fixed w _ _ _ _ _ _ Hw H) as Hfix.
  apply map_fixed in Hfix.
  pose proof (parse_proj_alias w _ _ _ _ _ _ H) as Halias.
  pose proof (run_parse_proj_built w _ _ _ _ _ H) as Hbuilt.
  assert (_parse_project_file w p
          = Ok (mkProject (proj_full_path w p)
                  (PathLib.str (resolve w (PathLib.parent p)))
                  (PathLib.stem p) (code_files proj) (child_projects proj)))
    as Hres.
  { unfold _parse_project_file. rewrite H. obind. cbv zeta.
    by rewrite Hfix, <- Halias. }
  split; [done|]. intros Hc. rewrite Hres. f_equal.
  transitivity (build_project w (canon w p) (code_files proj) cs);
    [|by symmetry].
  by rewrite Hc, Halias.
Qed.

Lemma wrapper_keeps_parse_proj_result_witness :
  let d := mkProject "/r/D.csproj" "/r" "D" [] [] in
  _parse_project_file Sample.diamond (Sample.at_root ["r"; "R.csproj"])
  = Ok (mkProject "/r/R.csproj" "/r" "R" []
          [mkProject "/r/B.csproj" "/r" "B" [] [d; d];
           mkProject "/r/C.csproj" "/r" "C" [] []]).
Proof.
  intros d.
  set (w := Sample.diamond). set (p := Sample.at_root ["r"; "R.csproj"]).
  assert (match run_parse_proj w p ∅ with
          | Ok x => Some x.1.1
          | _ => None
          end
          = Some (mkProject "/r/R.csproj" "/r" "R" []
                    [mkProject "/r/B.csproj" "/r" "B" [] [d; d];
                     mkProject "/r/C.csproj" "/r" "C" [] []])) as Hp
    by (vm_compute; reflexivity).
  destruct (run_parse_proj w p ∅) as [[[proj cs] v']| |] eqn:E;
    [|discriminate Hp|discriminate Hp].
  injection Hp as <-.
  destruct (wrapper_keeps_parse_proj_result w p proj cs v') as [_ H];
    [vm_compute; reflexivity|exact E|].
  apply H. vm_compute; reflexivity.
Defined.

(** ** The extension of a file name *)

Section ExtensionFacts.
Import PyStr OsPath.

Lemma rfind_last (c : ascii) (pre post : string) :
  has_char c post = false ->
  rfind c (pre +:+ String c post) = Z.of_nat (String.length pre).
Proof.
  intros H. unfold rfind. rewrite rfind_from_app. cbn [rfind_from].
  rewrite Ascii.eqb_refl. rewrite rfind_from_absent by done. lia.
Qed.

Lemma rfind_absent_tail (c : ascii) (a b : string) :
  has_char c b = false -> rfind c (a +:+ b) = rfind c a.
Proof.
  intros H. unfold rfind. rewrite rfind_from_app.
  by rewrite rfind_from_absent.
Qed.

Lemma rfind_from_bound (c : ascii) (s : string) (i last : Z) :
  (last < i)%Z ->
  (rfind_from c s i last < i + Z.of_nat (String.length s))%Z.
Proof.
  revert i last. induction s as [|a s IH]; intros i last Hl.
  - cbn. lia.
  - cbn [rfind_from String.length].
    specialize (IH (i + 1)%Z (if Ascii.eqb a c then i else last)).
    destruct (Ascii.eqb a c); lia.
Qed.

Lemma rfind_bound (c : ascii) (s : string) :
  (rfind c s < Z.of_nat (String.length s))%Z.
Proof.
  unfold rfind. pose proof (rfind_from_bound c s 0 (-1) ltac:(lia)). lia.
Qed.

(** The last slash of a prefixed name is the last character of the prefix. *)
Lemma sep_index (dir name : string) :
  dir_prefix dir = true -> has_char "/" name = false ->
  (rfind "/" (dir +:+ name) + 1 = Z.of_nat (String.length dir))%Z.
Proof.
  unfold dir_prefix. intros [->%String.eqb_eq|H]%orb_true_iff Hn.
  - change (EmptyString +:+ name) with name. unfold rfind.
    rewrite rfind_from_absent by done. done.
  - apply endswith_split in H as [d ->].
    rewrite append_assoc. change ("/" +:+ name) with (String "/" name).
    rewrite rfind_last by done. rewrite length_app_string. cbn. lia.
Qed.

Lemma get_at_length (pre : string) (c : ascii) (rest : string) :
  String.get (String.length pre) (pre +:+ String c rest) = Some c.
Proof.
  induction pre as [|a pre IH]; [done|].
  change (String a pre +:+ String c rest)
    with (String a (pre +:+ String c rest)).
  cbn [String.length String.get]. exact IH.
Qed.

(** The scan for a character other than a dot, over a stretch of the name. *)
Lemma scan_stretch (pre x post : string) :
  scan_non_dot (pre +:+ x +:+ post) (String.length pre) (String.length x)
  = negb (all_dots x).
Proof.
  revert pre. induction x as [|c x IH]; intros pre; [done|].
  change (String c x +:+ post) with (String c (x +:+ post)).
  cbn [String.length scan_non_dot all_dots]. rewrite get_at_length.
  destruct (Ascii.eqb_spec c ".") as [->|Hc]; [|done].
  cbn [andb].
  specialize (IH (pre +:+ ".")).
  rewrite append_assoc in IH.
  change ("." +:+ x +:+ post) with (String "." (x +:+ post)) in IH.
  rewrite length_app_string in IH. cbn [String.length] in IH.
  by replace (String.length pre + 1) with (S (String.length pre)) in IH
    by lia.
Qed.

(** A name with a word after its last dot: the word is the extension when
    something other than dots stands before that dot. *)
Lemma splitext_at_last_dot (dir x e : string) :
  dir_prefix dir = true -> has_char "/" x = false ->
  has_char "/" e = false -> has_char "." e = false ->
  snd (splitext (dir +:+ x +:+ String "." e))
  = if all_dots x then EmptyString else String "." e.
Proof.
  intros Hd Hx Hs He. unfold splitext.
  assert (has_char "/" (x +:+ String "." e) = false) as Hname.
  { rewrite has_char_app, Hx. cbn [has_char orb]. by rewrite Hs. }
  pose proof (sep_index dir _ Hd Hname) as Hsep.
  assert (rfind "." (dir +:+ x +:+ String "." e)
          = Z.of_nat (String.length dir + String.length x)) as Hdot.
  { rewrite <- append_assoc, rfind_last by done.
    by rewrite length_app_string. }
  rewrite Hdot.
  replace (Z.to_nat (rfind "/" (dir +:+ x +:+ String "." e) + 1))
    with (String.length dir) by lia.
  replace (Z.to_nat (Z.of_nat (String.length dir + String.length x)
                     - (rfind "/" (dir +:+ x +:+ String "." e) + 1)))
    with (String.length x) by lia.
  rewrite scan_stretch.
  destruct (all_dots x); [by rewrite andb_false_r|].
  assert ((rfind "/" (dir +:+ x +:+ String "." e)
           <? Z.of_nat (String.length dir + String.length x))%Z = true) as ->
    by (apply Z.ltb_lt; lia).
  cbn [andb negb snd]. unfold slice_from. rewrite Nat2Z.id.
  rewrite <- append_assoc, !length_app_string.
  replace (String.length dir + String.length x
           + String.length (String "." e)
           - (String.length dir + String.length x))
    with (String.length (String "." e)) by lia.
  rewrite <- length_app_string. apply substring_app_r.
Qed.

(** A name without a dot has no extension, whatever the folders before it
    are called. *)
Lemma splitext_no_dot (dir name : string) :
  dir_prefix dir = true -> has_char "/" name = false ->
  has_char "." name = false ->
  snd (splitext (dir +:+ name)) = EmptyString.
Proof.
  intros Hd Hs Hn. unfold splitext.
  pose proof (sep_index dir _ Hd Hs) as Hsep.
  rewrite (rfind_absent_tail "." dir name Hn).
  pose proof (rfind_bound "." dir) as Hb.
  assert ((rfind "/" (dir +:+ name) <? rfind "." dir)%Z = false) as ->
    by (apply Z.ltb_ge; lia).
  done.
Qed.

Lemma lower_char_inv (c l : ascii) :
  lower_char c = l -> in_range 97 122 (nat_of_ascii l) = true ->
  letter_variant c l = true.
Proof.
  intros <-.
  destruct c as [[] [] [] [] [] [] [] []]; vm_compute; congruence.
Qed.

Lemma letter_variant_lower (c l : ascii) :
  letter_variant c l = true -> lower_char l = l -> lower_char c = l.
Proof.
  unfold letter_variant.
  intros [->%Ascii.eqb_eq|[Hr Hn]%andb_true_iff]%orb_true_iff Hl; [done|].
  apply Nat.eqb_eq in Hn. unfold lower_char. rewrite Hr. cbn [orb].
  by rewrite Hn, ascii_nat_embedding.
Qed.

Lemma case_variant_lower (e k : string) :
  case_variant e k = true -> lower k = k -> lower e = k.
Proof.
  revert k. induction e as [|c e IH]; intros [|l k]; cbn; try done.
  intros [Hc He]%andb_true_iff [= Hl Hk].
  by rewrite (letter_variant_lower c l Hc Hl), (IH k He Hk).
Qed.

Lemma lower_case_variant (e k : string) :
  lower e = k -> small_letters k = true -> case_variant e k = true.
Proof.
  revert k. induction e as [|c e IH]; intros [|l k]; cbn; try done.
  intros [= Hc He] [Hl Hk]%andb_true_iff.
  by rewrite (lower_char_inv c l Hc Hl), (IH k He Hk).
Qed.

Lemma split_last_char (c : ascii) (s : string) :
  has_char c s = true ->
  exists a b, s = a +:+ String c b /\ has_char c b = false.
Proof.
  induction s as [|d s IH]; [done|]. cbn [has_char].
  destruct (has_char c s) eqn:Hs.
  - intros _. destruct (IH eq_refl) as (a & b & -> & Hb).
    by exists (String d a), b.
  - rewrite orb_false_r. intros ->%Ascii.eqb_eq. by exists EmptyString, s.
Qed.

Lemma endswith_app (a suf : string) : endswith (a +:+ suf) suf = true.
Proof.
  induction a as [|c a IH].
  - change (EmptyString +:+ suf) with suf.
    destruct suf; cbn [endswith]; by rewrite String.eqb_refl.
  - change (String c a +:+ suf) with (String c (a +:+ suf)).
    cbn [endswith]. by rewrite IH, orb_true_r.
Qed.

(** Every string is a folder prefix followed by a name without slashes. *)
Lemma dir_name_split (s : string) :
  exists dir name,
    s = dir +:+ name /\ dir_prefix dir = true /\ has_char "/" name = false.
Proof.
  destruct (has_char "/" s) eqn:Hs.
  - destruct (split_last_char "/" s Hs) as (a & b & -> & Hb).
    exists (a +:+ "/"), b. split; [by rewrite append_assoc|].
    split; [|done]. unfold dir_prefix. by rewrite endswith_app, orb_true_r.
  - by exists EmptyString, s.
Qed.

Lemma table_hit (e k : string) (l : Language) :
  In (k, l) spec_extension_table -> lower e = k ->
  dict_get (lower (String "." e))
    [ (".cs", CSharp); (".fs", FSharp); (".vb", VB); (".py", Python);
      (".java", Java); (".js", JavaScript);
      (".csproj", CSProject); (".vbproj", VBProject) ] Empty = l.
Proof.
  intros Hin He. cbn [lower]. rewrite He.
  change (lower_char ".") with "."%char.
  unfold spec_extension_table in Hin. cbn [In] in Hin.
  repeat (destruct Hin as [[= <- <-]|Hin]; [reflexivity|]). done.
Qed.

Lemma table_miss (e : string) :
  (forall k l, In (k, l) spec_extension_table -> lower e <> k) ->
  dict_get (lower (String "." e))
    [ (".cs", CSharp); (".fs", FSharp); (".vb", VB); (".py", Python);
      (".java", Java); (".js", JavaScript);
      (".csproj", CSProject); (".vbproj", VBProject) ] Empty = Empty.
Proof.
  intros H. cbn [lower]. change (lower_char ".") with "."%char.
  set (x := lower e) in *. cbn [dict_get].
  repeat match goal with
  | |- context [String.eqb (String "." x) (String "." ?k)] =>
      let E := fresh in
      destruct (String.eqb_spec (String "." x) (String "." k)) as [E|_];
        [injection E as E; exfalso; apply (H k _ ltac:(cbn; eauto 10) E)|]
  end.
  reflexivity.
Qed.

End ExtensionFacts.

(** C8. For every file name the classifier returns one [Language] value:
    it is a total function.  The name is a folder prefix followed by a name
    without slashes, and that name either holds no dot or ends in a dot
    and a word without dots.  Without a dot, or with nothing but dots
    before the last dot, the name has no extension and the result is
    Empty.  Otherwise the word after the last dot is the extension, and
    the result is read off the table with the letter case of the word left
    aside: [cs] in any letter case gives CSharp, [fs] FSharp, [vb] VB,
    [py] Python, [java] Java, [js] JavaScript, [csproj] CSProject,
    [vbproj] VBProject, and a word that spells none of the eight gives
    Empty. *)
Theorem detect_language_by_extension (file_name : string) :
  (exists dir name,
      file_name = dir +:+ name
      /\ dir_prefix dir = true /\ has_char "/" name = false
      /\ (has_char "." name = false
          \/ exists x e, name = x +:+ String "." e
                         /\ has_char "." e = false))
  /\ (forall dir name,
        file_name = dir +:+ name ->
        dir_prefix dir = true -> has_char "/" name = false ->
        (has_char "." name = false -> _detect_language file_name = Empty)
        /\ (forall x e,
              name = x +:+ String "." e -> has_char "." e = false ->
              (all_dots x = true -> _detect_language file_name = Empty)
              /\ (all_dots x = false ->
                  (forall k l, In (k, l) spec_extension_table ->
                               case_variant e k = true ->
                               _detect_language file_name = l)
                  /\ ((forall k l, In (k, l) spec_extension_table ->
                                   case_variant e k = false) ->
                      _detect_language file_name = Empty)))).
Proof.
  split.
  - destruct (dir_name_split file_name) as (dir & name & -> & Hd & Hn).
    exists dir, name. repeat split; try done.
    destruct (has_char "." name) eqn:Hdot; [right|by left].
    by apply split_last_char.
  - intros dir name -> Hd Hn. split.
    + intros Hdot. unfold _detect_language.
      by rewrite splitext_no_dot.
    + intros x e -> He.
      rewrite has_char_app in Hn. apply orb_false_iff in Hn as [Hx Hs].
      cbn [has_char] in Hs. apply orb_false_iff in Hs as [_ Hs].
      pose proof (splitext_at_last_dot dir x e Hd Hx Hs He) as Hext.
      unfold _detect_language. rewrite Hext. split.
      * by intros ->.
      * intros ->. split.
        -- intros k l Hin Hv. apply (table_hit e k l Hin).
           apply case_variant_lower; [done|].
           unfold spec_extension_table in Hin. cbn [In] in Hin.
           repeat (destruct Hin as [[= <- <-]|Hin]; [reflexivity|]). done.
        -- intros Hnone. apply table_miss. intros k l Hin Hk.
           specialize (Hnone k l Hin).
           rewrite lower_case_variant in Hnone; [done|done|].
           unfold spec_extension_table in Hin. cbn [In] in Hin.
           repeat (destruct Hin as [[= <- <-]|Hin]; [reflexivity|]). done.
Qed.
